(** * A Telegram relay bot with bounded per-user history (src/main.py)

    Shallow embedding of [main.py]: the process-wide [user_messages]
    store (a [defaultdict] of [deque(maxlen=10)]), the request builder
    [format_messages_for_api], the orchestrating [get_ai_response] with its
    [try]/[except Exception], and the three aiogram handlers.

    Python's side effects are threaded through a small state-and-exception
    monad over a [world] record; the completion provider and the chat
    transport are external, so the first is an oracle from requests to
    outcomes and the second is a log of what was sent. *)

From stdpp Require Import gmap strings list.
From Stdlib Require Import QArith.QArith_base.

Local Open Scope Z_scope.
Local Open Scope string_scope.
Local Open Scope list_scope.

(** ** Python values at the boundary *)

(** A history entry is the dict [{"role": ..., "content": ...}]. *)
Record entry : Type := Entry { role : string; content : string }.

#[global] Instance entry_eq_dec : EqDecision entry.
Proof. solve_decision. Defined.

(** An instance of (a subclass of) [Exception]: what [except Exception]
    handles, and what a failing provider call raises.  [exc_str] is what
    [str(e)] gives.  Signals outside that class (task cancellation,
    interpreter exit) are not outcomes of the provider and are left out. *)
Record PyException : Type :=
  PyExc { exc_type : string; exc_str : string }.

(** The response object of the provider client, as far as the code reads
    it: [response.choices[0].message.content].  The content is text, as
    the annotation [-> str] of [get_ai_response], which returns it, has
    it. *)
Record ChatCompletionMessage : Type := { msg_content : string }.
Record Choice : Type := { choice_message : ChatCompletionMessage }.
Record ChatCompletion : Type := { choices : list Choice }.

(** The keyword arguments of [client.chat.completions.create]. *)
Record request : Type := Request {
  req_model : string;
  req_messages : list entry;
  req_temperature : Q
}.

(** What awaiting the provider call yields. *)
Inductive outcome : Type :=
  | Returns (response : ChatCompletion)
  | Raises (e : PyException).

(** The provider is outside the program: an oracle. *)
Definition provider : Type := request -> outcome.

(** An inbound aiogram [Message], as far as the handlers read it. *)
Record Message : Type := {
  from_user_id : Z;
  chat_id : Z;
  text : option string
}.

(** What the bot asked the chat transport to do. *)
Inductive outbound : Type :=
  | Answer (chat : Z) (body : string)
  | ChatAction (chat : Z) (action : string).

(** ** [collections.deque] with a [maxlen] *)

Section Deque.
Context {A : Type}.

Record deque : Type := Deque { maxlen : nat; items : list A }.

(** [deque(maxlen=n)] *)
Definition deque_new (n : nat) : deque := {| maxlen := n; items := [] |}.

(** [d.append(x)]: the item goes to the right end, then the deque is
    trimmed from the left if it outgrew [maxlen]. *)
Definition deque_append (d : deque) (x : A) : deque :=
  let grown := items d ++ [x] in
  {| maxlen := maxlen d;
     items := if decide (maxlen d < length grown)%nat
              then drop 1 grown else grown |}.

(** [d.clear()] *)
Definition deque_clear (d : deque) : deque :=
  {| maxlen := maxlen d; items := [] |}.

(** [list(d)] *)
Definition deque_list (d : deque) : list A := items d.

(** Repeated [append], left to right. *)
Definition deque_extend (d : deque) (xs : list A) : deque :=
  foldl deque_append d xs.

(** The last [n] elements of a list. *)
Definition lastn (n : nat) (l : list A) : list A :=
  drop (length l - n) l.
End Deque.

Arguments deque : clear implicits.

(** ** The process state *)

Record world : Type := World {
  user_messages : gmap Z (deque entry);  (* the global defaultdict *)
  stdout : list string;                  (* lines written by [print] *)
  api_calls : list request;              (* provider calls, oldest first *)
  sent : list outbound                   (* transport calls, oldest first *)
}.

Definition initial_world : world :=
  {| user_messages := ∅; stdout := []; api_calls := []; sent := [] |}.

Definition set_user_messages (s : gmap Z (deque entry)) (w : world) : world :=
  {| user_messages := s; stdout := stdout w;
     api_calls := api_calls w; sent := sent w |}.

(** ** State and exceptions *)

Inductive result (A : Type) : Type :=
  | Ok (a : A)
  | Raise (e : PyException).
Arguments Ok {A} a.
Arguments Raise {A} e.

(** A Python computation: it ends normally or by raising, and in both
    cases the state it reached stays. *)
Definition M (A : Type) : Type := world -> result A * world.

Definition ret {A} (a : A) : M A := fun w => (Ok a, w).

Definition raise {A} (e : PyException) : M A := fun w => (Raise e, w).

Definition bind {A B} (m : M A) (k : A -> M B) : M B :=
  fun w => match m w with
           | (Ok a, w') => k a w'
           | (Raise e, w') => (Raise e, w')
           end.

(** [try: body  except Exception as e: handler e] *)
Definition try_except {A} (body : M A) (handler : PyException -> M A) : M A :=
  fun w => match body w with
           | (Ok a, w') => (Ok a, w')
           | (Raise e, w') => handler e w'
           end.

Notation "x <- e ;; k" := (bind e (fun x => k))
  (at level 100, e at next level, right associativity).
Notation "e ;;; k" := (bind e (fun _ => k))
  (at level 100, right associativity).

(** ** Primitive effects *)

(** [print(line)] *)
Definition print (line : string) : M unit := fun w =>
  (Ok tt, {| user_messages := user_messages w; stdout := stdout w ++ [line];
             api_calls := api_calls w; sent := sent w |}).

(** [await message.answer(body)] *)
Definition message_answer (message : Message) (body : string) : M unit := fun w =>
  (Ok tt, {| user_messages := user_messages w; stdout := stdout w;
             api_calls := api_calls w;
             sent := sent w ++ [Answer (chat_id message) body] |}).

(** [await bot.send_chat_action(chat_id=..., action=...)] *)
Definition send_chat_action (chat : Z) (action : string) : M unit := fun w =>
  (Ok tt, {| user_messages := user_messages w; stdout := stdout w;
             api_calls := api_calls w;
             sent := sent w ++ [ChatAction chat action] |}).

(** [await client.chat.completions.create(...)]: the call is recorded and
    the provider decides how it ends. *)
Definition chat_completions_create (client : provider) (req : request)
  : M ChatCompletion := fun w =>
  let w' := {| user_messages := user_messages w; stdout := stdout w;
               api_calls := api_calls w ++ [req]; sent := sent w |} in
  match client req with
  | Returns response => (Ok response, w')
  | Raises e => (Raise e, w')
  end.

(** [l[i]] on a Python list, for a non-negative index. *)
Definition list_getitem {A} (l : list A) (i : nat) : M A :=
  match l !! i with
  | Some x => ret x
  | None => raise {| exc_type := "IndexError";
                     exc_str := "list index out of range" |}
  end.

(** [os.getenv(key, default)] *)
Definition getenv (environ : gmap string string) (key default : string) : string :=
  match environ !! key with
  | Some v => v
  | None => default
  end.

(** ** The store: [defaultdict(lambda: deque(maxlen=10))] *)

Definition default_factory : deque entry := deque_new 10.

(** [user_messages[user_id]]: a missing key is inserted with a fresh
    deque, which is what the lookup then gives. *)
Definition user_messages_getitem (user_id : Z) : M (deque entry) := fun w =>
  match user_messages w !! user_id with
  | Some d => (Ok d, w)
  | None => (Ok default_factory,
             set_user_messages (<[user_id := default_factory]> (user_messages w)) w)
  end.

(** [user_messages[user_id].append(x)]: the deque found (or just made) is
    changed in place, so the store sees the change. *)
Definition user_messages_append (user_id : Z) (x : entry) : M unit :=
  d <- user_messages_getitem user_id ;;
  fun w => (Ok tt, set_user_messages
                     (<[user_id := deque_append d x]> (user_messages w)) w).

(** [user_id in user_messages] *)
Definition user_messages_contains (user_id : Z) : M bool := fun w =>
  (Ok (bool_decide (is_Some (user_messages w !! user_id))), w).

(** [user_messages[user_id].clear()] *)
Definition user_messages_clear (user_id : Z) : M unit :=
  d <- user_messages_getitem user_id ;;
  fun w => (Ok tt, set_user_messages
                     (<[user_id := deque_clear d]> (user_messages w)) w).

(** ** The program *)

Definition LF : string := String (Ascii.ascii_of_nat 10) EmptyString.

Definition OPENROUTER_BASE_URL : string := "https://openrouter.ai/api/v1".

Definition TEMPERATURE : Q := Qmake 7 10.

(** The entry built anew at every request assembly. *)
Definition system_message : entry :=
  {| role := "system";
     content := "Ты полезный ассистент. Отвечай на русском языке." |}.

Definition apology : string :=
  "Извините, произошла ошибка при обработке вашего запроса. Попробуйте позже.".

Definition corrective_prompt : string :=
  "Пожалуйста, отправьте текстовое сообщение.".

Definition welcome_text : string :=
  "👋 Привет! Я бот с интеграцией ИИ." ++ LF ++ LF ++
  "Просто отправь мне текстовое сообщение, и я отвечу с помощью искусственного интеллекта." ++ LF ++ LF ++
  "Используй /start для начала нового диалога (очистки истории).".

Definition help_text : string :=
  "📖 Справка по использованию бота:" ++ LF ++ LF ++
  "/start - Начать новый диалог (очистить историю)" ++ LF ++
  "/help - Показать эту справку" ++ LF ++ LF ++
  "Просто отправь текстовое сообщение, и я отвечу с помощью ИИ." ++ LF ++
  "Бот помнит последние 10 сообщений в нашем диалоге.".

(** [format_messages_for_api(user_id, new_message)] *)
Definition format_messages_for_api (user_id : Z) (new_message : string)
  : M (list entry) :=
  user_messages_append user_id {| role := "user"; content := new_message |} ;;;
  d <- user_messages_getitem user_id ;;
  let messages := deque_list d in
  ret ([system_message] ++ messages).

Section Bot.
(** The process environment, read once when the module is loaded. *)
Variable environ : gmap string string.

Definition DEFAULT_MODEL : string :=
  getenv environ "OPENROUTER_MODEL" "google/gemini-pro-1.5".

(** [get_ai_response(user_id, user_message)], with the provider that
    answers this call. *)
Definition get_ai_response (client : provider) (user_id : Z)
    (user_message : string) : M string :=
  try_except
    (messages <- format_messages_for_api user_id user_message ;;
     response <- chat_completions_create client
                   {| req_model := DEFAULT_MODEL;
                      req_messages := messages;
                      req_temperature := TEMPERATURE |} ;;
     first_choice <- list_getitem (choices response) 0 ;;
     let ai_response := msg_content (choice_message first_choice) in
     user_messages_append user_id
       {| role := "assistant"; content := ai_response |} ;;;
     ret ai_response)
    (fun e =>
       let error_message := "Ошибка при обращении к ИИ: " +:+ exc_str e in
       print error_message ;;;
       ret apology).

(** [cmd_start(message)] *)
Definition cmd_start (message : Message) : M unit :=
  let user_id := from_user_id message in
  known <- user_messages_contains user_id ;;
  (if known : bool then user_messages_clear user_id else ret tt) ;;;
  message_answer message welcome_text.

(** [cmd_help(message)] *)
Definition cmd_help (message : Message) : M unit :=
  message_answer message help_text.

(** Python truth of [message.text]: [None] and the empty string are
    false. *)
Definition text_truthy (t : option string) : bool :=
  match t with
  | Some s => negb (bool_decide (s = ""))
  | None => false
  end.

(** [handle_text_message(message)], with the provider that answers the
    call it may make. *)
Definition handle_text_message (client : provider) (message : Message)
  : M unit :=
  if negb (text_truthy (text message)) then
    message_answer message corrective_prompt
  else
    let user_id := from_user_id message in
    let user_message := default "" (text message) in
    send_chat_action (chat_id message) "typing" ;;;
    ai_response <- get_ai_response client user_id user_message ;;
    message_answer message ai_response.

(** The three triggers the dispatcher delivers. *)
Inductive event : Type :=
  | EvStart (message : Message)
  | EvHelp (message : Message)
  | EvText (message : Message) (client : provider).

Definition handle (ev : event) : M unit :=
  match ev with
  | EvStart message => cmd_start message
  | EvHelp message => cmd_help message
  | EvText message client => handle_text_message client message
  end.

(** One event after the other, each handler running to its end before
    the next one starts: no other task touches the store while a provider
    call is awaited. *)
Definition run (evs : list event) (w : world) : world :=
  foldl (fun w ev => snd (handle ev w)) w evs.

(** The states the process can be in between two events. *)
Inductive reachable : world -> Prop :=
  | reachable_initial : reachable initial_world
  | reachable_step w ev :
      reachable w -> reachable (snd (handle ev w)).

(** The history of a user as [list(user_messages[user_id])] would show
    it, without creating the key. *)
Definition history (w : world) (user_id : Z) : list entry :=
  match user_messages w !! user_id with
  | Some d => items d
  | None => []
  end.
End Bot.

(** ** Vocabulary of the statements *)

(** A deque never holds more than its [maxlen]. *)
Definition deque_ok {A} (d : deque A) : Prop :=
  (length (items d) <= maxlen d)%nat.

(** The two dict literals the program stores. *)
Definition user_entry (t : string) : entry :=
  {| role := "user"; content := t |}.

Definition assistant_entry (r : string) : entry :=
  {| role := "assistant"; content := r |}.

(** The deque that [user_messages[user_id]] denotes in [w]: the stored
    one, or the fresh one the factory would make. *)
Definition stored (w : world) (user_id : Z) : deque entry :=
  default default_factory (user_messages w !! user_id).

(** The roles a stored entry may carry. *)
Definition stored_role (e : entry) : Prop :=
  role e = "user" \/ role e = "assistant".

(** What every deque in the store satisfies. *)
Definition history_ok (d : deque entry) : Prop :=
  maxlen d = 10%nat /\ deque_ok d /\ Forall stored_role (items d).

Definition store_ok (w : world) : Prop :=
  forall user_id d, user_messages w !! user_id = Some d -> history_ok d.

(** The request [get_ai_response] submits for [user_message] in [w]:
    the model of the environment, the system entry followed by the
    history as it is after the user's entry went in, and the fixed
    temperature. *)
Definition request_of (environ : gmap string string) (w : world)
    (user_id : Z) (user_message : string) : request :=
  {| req_model := DEFAULT_MODEL environ;
     req_messages :=
       system_message ::
       items (deque_append (stored w user_id) (user_entry user_message));
     req_temperature := TEMPERATURE |}.

(** The text of the first completion choice, when the call returned one. *)
Definition first_text (o : outcome) : option string :=
  match o with
  | Returns response =>
      match choices response !! 0%nat with
      | Some c => Some (msg_content (choice_message c))
      | None => None
      end
  | Raises _ => None
  end.




(** ** Start of the process *)

(** What the module holds once it is loaded. *)
Record config : Type := Config {
  cfg_telegram_token : string;
  cfg_api_key : string;
  cfg_base_url : string;
  cfg_model : string
}.

Definition token_missing : PyException :=
  {| exc_type := "ValueError";
     exc_str := "TELEGRAM_TOKEN не найден в .env файле" |}.

Definition api_key_missing : PyException :=
  {| exc_type := "ValueError";
     exc_str := "OPENROUTER_API_KEY не найден в .env файле" |}.

(** The statements the module runs when it is loaded, up to the creation
    of the store: the two credentials are read with [os.getenv(key)] and
    tested with [not], the bot object is built between the two tests, and
    the client gets the key and the fixed base URL.  [bot_init] says how
    the constructor [Bot(token=...)] of the transport library ends for a
    token: normally, or by raising. *)
Definition module_init (environ : gmap string string)
    (bot_init : string -> option PyException) : result config :=
  let TELEGRAM_TOKEN := environ !! "TELEGRAM_TOKEN" in
  if negb (text_truthy TELEGRAM_TOKEN) then Raise token_missing
  else
    match bot_init (default "" TELEGRAM_TOKEN) with
    | Some e => Raise e
    | None =>
        let OPENROUTER_API_KEY := environ !! "OPENROUTER_API_KEY" in
        if negb (text_truthy OPENROUTER_API_KEY) then Raise api_key_missing
        else
          Ok {| cfg_telegram_token := default "" TELEGRAM_TOKEN;
                cfg_api_key := default "" OPENROUTER_API_KEY;
                cfg_base_url := OPENROUTER_BASE_URL;
                cfg_model := DEFAULT_MODEL environ |}
    end.

(** ** Vocabulary of the statements about events *)

(** The message an event carries, and the user it comes from. *)
Definition event_message (ev : event) : Message :=
  match ev with
  | EvStart message | EvHelp message | EvText message _ => message
  end.

Definition event_user (ev : event) : Z := from_user_id (event_message ev).

(** Whether the event is a text message that goes to the provider. *)
Definition forwards (ev : event) : bool :=
  match ev with
  | EvText message _ => text_truthy (text message)
  | _ => false
  end.

(** What the provider answers to the request the event leads to in [w]. *)
Definition event_outcome (environ : gmap string string) (ev : event)
    (w : world) : option outcome :=
  match ev with
  | EvText message client =>
      if text_truthy (text message)
      then Some (client (request_of environ w (from_user_id message)
                                    (default "" (text message))))
      else None
  | _ => None
  end.


(** What every request handed to the provider looks like. *)
Definition request_ok (environ : gmap string string) (req : request) : Prop :=
  req_model req = DEFAULT_MODEL environ /\
  req_temperature req = TEMPERATURE /\
  exists earlier t,
    req_messages req = system_message :: earlier ++ [user_entry t] /\
    (length earlier <= 9)%nat /\
    Forall stored_role earlier.

(** The line [get_ai_response] prints for an outcome: none when the first
    choice is there, else the message of what was raised. *)
Definition failure_lines (o : outcome) : list string :=
  match o with
  | Raises e => ["Ошибка при обращении к ИИ: " +:+ exc_str e]
  | Returns response =>
      match choices response !! 0%nat with
      | Some _ => []
      | None => ["Ошибка при обращении к ИИ: list index out of range"]
      end
  end.

(** The entries one call of [get_ai_response] adds for an outcome. *)
Definition call_entries (t : string) (o : outcome) : list entry :=
  user_entry t ::
  match first_text o with
  | Some r => [assistant_entry r]
  | None => []
  end.

(** ** Sample inputs *)

(** A provider that returns one choice with the text [r]. *)
Definition replying (r : string) : provider :=
  fun _ => Returns {| choices := [ {| choice_message := {| msg_content := r |} |} ] |}.



(** A private chat: the chat id is the user's id. *)
Definition text_message (user_id : Z) (t : string) : Message :=
  {| from_user_id := user_id; chat_id := user_id; text := Some t |}.

(** A state in which user 7 has a full history: five answered messages. *)
Definition busy_world : world :=
  run ∅ [EvText (text_message 7 "1") (replying "one");
         EvText (text_message 7 "2") (replying "two");
         EvText (text_message 7 "3") (replying "three");
         EvText (text_message 7 "4") (replying "four");
         EvText (text_message 7 "5") (replying "five")] initial_world.

(** Eleven answered messages of user 7 and the exchanges they make. *)
Definition eleven_turns : list (string * string) :=
  [("1", "one"); ("2", "two"); ("3", "three"); ("4", "four"); ("5", "five");
   ("6", "six"); ("7", "seven"); ("8", "eight"); ("9", "nine"); ("10", "ten");
   ("11", "eleven")].

Definition eleven_events : list event :=
  map (fun turn => EvText (text_message 7 (fst turn)) (replying (snd turn)))
      eleven_turns.

(** A photo: a message without text. *)
Definition photo_message : Message :=
  {| from_user_id := 7; chat_id := 7; text := None |}.

(** A provider whose response has no choice. *)
Definition choiceless : provider := fun _ => Returns {| choices := [] |}.

(** An environment with both credentials and no model. *)
Definition sample_environ : gmap string string :=
  {[ "TELEGRAM_TOKEN" := "123456:ABC"; "OPENROUTER_API_KEY" := "sk-or-v1" ]}.

(** A bot constructor that takes any token. *)
Definition any_token : string -> option PyException := fun _ => None.

(** * The program over the values the libraries really hand over

    The embedding above takes the provider's text and the errors as the
    annotations of [main.py] give them: the content of a choice is a
    string, what is raised is an [Exception], and the transport takes
    every call.  The libraries allow more: the content of a choice may be
    [None], an awaited call may be ended by a class outside [Exception]
    (task cancellation), and a transport call may raise.  [Raw] embeds the
    same functions over those values. *)

Module Raw.

(** A history entry.  The content of an assistant entry is whatever the
    first choice held, so it may be [None]. *)
Record entry : Type := Entry { role : string; content : option string }.

(** What can be raised: an instance of [Exception], or an instance of a
    class outside it ([asyncio.CancelledError], [KeyboardInterrupt],
    [SystemExit]), named by its class. *)
Inductive exception : Type :=
  | Exc (e : PyException)
  | BaseExc (class_name : string).

Record ChatCompletionMessage : Type := { msg_content : option string }.
Record Choice : Type := { choice_message : ChatCompletionMessage }.
Record ChatCompletion : Type := { choices : list Choice }.

Record request : Type := Request {
  req_model : string;
  req_messages : list entry;
  req_temperature : Q
}.

Inductive outcome : Type :=
  | Returns (response : ChatCompletion)
  | Raises (x : exception).

Definition provider : Type := request -> outcome.

(** A call to the chat transport; the body of an answer is the value the
    handler passes, which may be [None]. *)
Inductive call : Type :=
  | Answer (chat : Z) (body : option string)
  | ChatAction (chat : Z) (action : string).

(** How the transport ends a call: normally, or by raising. *)
Definition transport : Type := call -> option exception.

Record world : Type := World {
  user_messages : gmap Z (deque entry);
  stdout : list string;
  api_calls : list request;   (* provider calls made, oldest first *)
  sent : list call            (* transport calls that returned, oldest first *)
}.

Definition initial_world : world :=
  {| user_messages := ∅; stdout := []; api_calls := []; sent := [] |}.

Definition set_user_messages (s : gmap Z (deque entry)) (w : world) : world :=
  {| user_messages := s; stdout := stdout w;
     api_calls := api_calls w; sent := sent w |}.

Inductive result (A : Type) : Type :=
  | Ok (a : A)
  | Raise (x : exception).
Arguments Ok {A} a.
Arguments Raise {A} x.

Definition M (A : Type) : Type := world -> result A * world.

Definition ret {A} (a : A) : M A := fun w => (Ok a, w).

Definition raise {A} (x : exception) : M A := fun w => (Raise x, w).

Definition bind {A B} (m : M A) (k : A -> M B) : M B :=
  fun w => match m w with
           | (Ok a, w') => k a w'
           | (Raise x, w') => (Raise x, w')
           end.

(** [try: body  except Exception as e: handler e]: only instances of
    [Exception] are handled, anything else goes on to the caller. *)
Definition try_except {A} (body : M A) (handler : PyException -> M A) : M A :=
  fun w => match body w with
           | (Ok a, w') => (Ok a, w')
           | (Raise (Exc e), w') => handler e w'
           | (Raise (BaseExc c), w') => (Raise (BaseExc c), w')
           end.

Notation "x <~ e ;; k" := (bind e (fun x => k))
  (at level 100, e at next level, right associativity).
Notation "e ;;~ k" := (bind e (fun _ => k))
  (at level 100, right associativity).

Definition print (line : string) : M unit := fun w =>
  (Ok tt, {| user_messages := user_messages w; stdout := stdout w ++ [line];
             api_calls := api_calls w; sent := sent w |}).

(** A transport call: recorded when it returns, not when it raises. *)
Definition transport_call (tr : transport) (c : call) : M unit := fun w =>
  match tr c with
  | None => (Ok tt, {| user_messages := user_messages w; stdout := stdout w;
                       api_calls := api_calls w; sent := sent w ++ [c] |})
  | Some x => (Raise x, w)
  end.

(** [await message.answer(body)] *)
Definition message_answer (tr : transport) (message : Message)
    (body : option string) : M unit :=
  transport_call tr (Answer (chat_id message) body).

(** [await bot.send_chat_action(chat_id=..., action=...)] *)
Definition send_chat_action (tr : transport) (chat : Z) (action : string)
  : M unit :=
  transport_call tr (ChatAction chat action).

(** The provider call is recorded when it is made. *)
Definition record_call (req : request) : M unit := fun w =>
  (Ok tt, {| user_messages := user_messages w; stdout := stdout w;
             api_calls := api_calls w ++ [req]; sent := sent w |}).

(** What the awaited provider call gives back to the function. *)
Definition resume (o : outcome) : M ChatCompletion :=
  match o with
  | Returns response => ret response
  | Raises x => raise x
  end.

(** [await client.chat.completions.create(...)] *)
Definition chat_completions_create (client : provider) (req : request)
  : M ChatCompletion :=
  record_call req ;;~ resume (client req).

Definition list_getitem {A} (l : list A) (i : nat) : M A :=
  match l !! i with
  | Some x => ret x
  | None => raise (Exc {| exc_type := "IndexError";
                          exc_str := "list index out of range" |})
  end.

Definition default_factory : deque entry := deque_new 10.

Definition user_messages_getitem (user_id : Z) : M (deque entry) := fun w =>
  match user_messages w !! user_id with
  | Some d => (Ok d, w)
  | None => (Ok default_factory,
             set_user_messages (<[user_id := default_factory]> (user_messages w)) w)
  end.

Definition user_messages_append (user_id : Z) (x : entry) : M unit :=
  d <~ user_messages_getitem user_id ;;
  fun w => (Ok tt, set_user_messages
                     (<[user_id := deque_append d x]> (user_messages w)) w).

Definition system_message : entry :=
  {| role := "system";
     content := Some "Ты полезный ассистент. Отвечай на русском языке." |}.

(** [format_messages_for_api(user_id, new_message)] *)
Definition format_messages_for_api (user_id : Z) (new_message : string)
  : M (list entry) :=
  user_messages_append user_id
    {| role := "user"; content := Some new_message |} ;;~
  d <~ user_messages_getitem user_id ;;
  let messages := deque_list d in
  ret ([system_message] ++ messages).

(** The [except] branch of [get_ai_response]. *)
Definition on_exception (e : PyException) : M (option string) :=
  let error_message := "Ошибка при обращении к ИИ: " +:+ exc_str e in
  print error_message ;;~
  ret (Some apology).

(** [get_ai_response(user_id, user_message)]; the value returned is the
    content of the first choice as it came, or the apology. *)
Definition get_ai_response (environ : gmap string string) (client : provider)
    (user_id : Z) (user_message : string) : M (option string) :=
  try_except
    (messages <~ format_messages_for_api user_id user_message ;;
     response <~ chat_completions_create client
                   {| req_model := DEFAULT_MODEL environ;
                      req_messages := messages;
                      req_temperature := TEMPERATURE |} ;;
     first_choice <~ list_getitem (choices response) 0 ;;
     let ai_response := msg_content (choice_message first_choice) in
     user_messages_append user_id
       {| role := "assistant"; content := ai_response |} ;;~
     ret ai_response)
    on_exception.

(** [handle_text_message(message)] *)
Definition handle_text_message (environ : gmap string string)
    (tr : transport) (client : provider) (message : Message) : M unit :=
  if negb (text_truthy (text message)) then
    message_answer tr message (Some corrective_prompt)
  else
    let user_id := from_user_id message in
    let user_message := default "" (text message) in
    send_chat_action tr (chat_id message) "typing" ;;~
    ai_response <~ get_ai_response environ client user_id user_message ;;
    message_answer tr message ai_response.

(** The two halves of [get_ai_response] around its only suspension point,
    the awaited provider call: what runs until the call is made, and what
    runs once the call has ended with [o]. *)
Definition get_ai_response_until_await (environ : gmap string string)
    (user_id : Z) (user_message : string) : M request :=
  messages <~ format_messages_for_api user_id user_message ;;
  let req := {| req_model := DEFAULT_MODEL environ;
                req_messages := messages;
                req_temperature := TEMPERATURE |} in
  record_call req ;;~
  ret req.

Definition get_ai_response_after_await (user_id : Z) (o : outcome)
  : M (option string) :=
  try_except
    (response <~ resume o ;;
     first_choice <~ list_getitem (choices response) 0 ;;
     let ai_response := msg_content (choice_message first_choice) in
     user_messages_append user_id
       {| role := "assistant"; content := ai_response |} ;;~
     ret ai_response)
    on_exception.

(** ** Vocabulary of the statements *)

Definition user_entry (t : string) : entry :=
  {| role := "user"; content := Some t |}.

Definition assistant_entry (c : option string) : entry :=
  {| role := "assistant"; content := c |}.

Definition stored (w : world) (user_id : Z) : deque entry :=
  default default_factory (user_messages w !! user_id).

Definition history (w : world) (user_id : Z) : list entry :=
  match user_messages w !! user_id with
  | Some d => items d
  | None => []
  end.

Definition request_of (environ : gmap string string) (w : world)
    (user_id : Z) (user_message : string) : request :=
  {| req_model := DEFAULT_MODEL environ;
     req_messages :=
       system_message ::
       items (deque_append (stored w user_id) (user_entry user_message));
     req_temperature := TEMPERATURE |}.

(** The state in which [get_ai_response] awaits the provider: the user's
    entry is in the history and the call is recorded. *)
Definition awaiting (environ : gmap string string) (w : world)
    (user_id : Z) (user_message : string) : world :=
  {| user_messages :=
       <[user_id := deque_append (stored w user_id) (user_entry user_message)]>
         (user_messages w);
     stdout := stdout w;
     api_calls := api_calls w ++ [request_of environ w user_id user_message];
     sent := sent w |}.

(** The same state after one more line was printed. *)
Definition printed (line : string) (w : world) : world :=
  {| user_messages := user_messages w; stdout := stdout w ++ [line];
     api_calls := api_calls w; sent := sent w |}.

(** The same state after the reply went into the user's history. *)
Definition replied (user_id : Z) (c : option string) (w : world) : world :=
  set_user_messages
    (<[user_id := deque_append (stored w user_id) (assistant_entry c)]>
       (user_messages w)) w.

(** The provider call ended in a way [get_ai_response] turns into text:
    a first choice whose content is text, no choice at all, or an
    [Exception]. *)
Definition gives_text (o : outcome) : Prop :=
  match o with
  | Returns response =>
      match choices response !! 0%nat with
      | Some c => is_Some (msg_content (choice_message c))
      | None => True
      end
  | Raises (Exc _) => True
  | Raises (BaseExc _) => False
  end.

(** The text [get_ai_response] returns for such an outcome. *)
Definition text_of (o : outcome) : string :=
  match o with
  | Returns response =>
      match choices response !! 0%nat with
      | Some c => default apology (msg_content (choice_message c))
      | None => apology
      end
  | Raises _ => apology
  end.

(** ** Sample inputs *)

(** The awaited call is cancelled. *)
Definition cancelled : provider := fun _ => Raises (BaseExc "CancelledError").

(** The first choice comes without content. *)
Definition null_content : provider :=
  fun _ => Returns {| choices := [ {| choice_message := {| msg_content := None |} |} ] |}.

Definition replying (r : string) : provider :=
  fun _ => Returns {| choices := [ {| choice_message := {| msg_content := Some r |} |} ] |}.

(** A transport that takes every call. *)
Definition accepting : transport := fun _ => None.

(** A transport that takes every call but an answer without a body, as
    the validation of the outgoing message does. *)
Definition validating : transport := fun c =>
  match c with
  | Answer _ None =>
      Some (Exc {| exc_type := "ValidationError";
                   exc_str := "text: Input should be a valid string" |})
  | _ => None
  end.

End Raw.

(** ** From the annotated values to the libraries' values *)

Definition lift_entry (e : entry) : Raw.entry :=
  {| Raw.role := role e; Raw.content := Some (content e) |}.

Definition lower_entry (e : Raw.entry) : entry :=
  {| role := Raw.role e; content := default "" (Raw.content e) |}.

Definition lift_deque (d : deque entry) : deque Raw.entry :=
  {| maxlen := maxlen d; items := lift_entry <$> items d |}.

Definition lift_request (req : request) : Raw.request :=
  {| Raw.req_model := req_model req;
     Raw.req_messages := lift_entry <$> req_messages req;
     Raw.req_temperature := req_temperature req |}.

Definition lower_request (req : Raw.request) : request :=
  {| req_model := Raw.req_model req;
     req_messages := lower_entry <$> Raw.req_messages req;
     req_temperature := Raw.req_temperature req |}.

Definition lift_choice (c : Choice) : Raw.Choice :=
  {| Raw.choice_message :=
       {| Raw.msg_content := Some (msg_content (choice_message c)) |} |}.

Definition lift_outcome (o : outcome) : Raw.outcome :=
  match o with
  | Returns response =>
      Raw.Returns {| Raw.choices := lift_choice <$> choices response |}
  | Raises e => Raw.Raises (Raw.Exc e)
  end.

(** A provider that keeps to the annotations, seen as one over the
    libraries' values. *)
Definition lift_provider (client : provider) : Raw.provider :=
  fun req => lift_outcome (client (lower_request req)).

Definition lift_outbound (o : outbound) : Raw.call :=
  match o with
  | Answer chat body => Raw.Answer chat (Some body)
  | ChatAction chat action => Raw.ChatAction chat action
  end.

Definition lift_world (w : world) : Raw.world :=
  {| Raw.user_messages := lift_deque <$> user_messages w;
     Raw.stdout := stdout w;
     Raw.api_calls := lift_request <$> api_calls w;
     Raw.sent := lift_outbound <$> sent w |}.

Definition lift_result {A B} (f : A -> B) (r : result A) : Raw.result B :=
  match r with
  | Ok a => Raw.Ok (f a)
  | Raise e => Raw.Raise (Raw.Exc e)
  end.

(** * Properties *)

(** ** The bounded deque *)

Section DequeFacts.
Context {A : Type}.
Implicit Types (d : deque A) (x : A) (l xs : list A) (n : nat).

Lemma lastn_length n l : length (lastn n l) = (n `min` length l)%nat.
Proof. unfold lastn. rewrite length_drop. lia. Qed.

Lemma lastn_short n l : (length l <= n)%nat -> lastn n l = l.
Proof.
  intros Hl. unfold lastn.
  replace (length l - n)%nat with 0%nat by lia. reflexivity.
Qed.

Lemma lastn_app_lastn n l xs : lastn n (lastn n l ++ xs) = lastn n (l ++ xs).
Proof.
  unfold lastn. rewrite !length_app, length_drop.
  set (k := (length l - n)%nat).
  assert (Hk : (k <= length l)%nat) by lia.
  assert (Hsplit : l ++ xs = take k l ++ (drop k l ++ xs))
    by (rewrite app_assoc, take_drop; reflexivity).
  rewrite Hsplit.
  rewrite (drop_app_ge (take k l)) by (rewrite length_take; lia).
  rewrite length_take. f_equal. lia.
Qed.

Lemma lastn_snoc n l x : (0 < n)%nat -> last (lastn n (l ++ [x])) = Some x.
Proof.
  intros Hn. unfold lastn. rewrite length_app. simpl.
  rewrite drop_app_le by lia. apply last_snoc.
Qed.

Lemma deque_new_ok n : deque_ok (deque_new (A := A) n).
Proof. unfold deque_ok. simpl. lia. Qed.

Lemma deque_append_maxlen d x : maxlen (deque_append d x) = maxlen d.
Proof. reflexivity. Qed.

Lemma deque_append_ok d x : deque_ok d -> deque_ok (deque_append d x).
Proof.
  unfold deque_ok, deque_append. simpl. intros Hd.
  case_decide as Hlt.
  - rewrite length_drop, length_app. simpl. lia.
  - lia.
Qed.

(** Below capacity an append only adds at the right end. *)
Lemma deque_append_room d x :
  (length (items d) < maxlen d)%nat ->
  items (deque_append d x) = items d ++ [x].
Proof.
  intros Hd. unfold deque_append. simpl.
  rewrite decide_False; [reflexivity | rewrite length_app; simpl; lia].
Qed.

(** At capacity the leftmost (oldest) item goes and the new one comes
    last. *)
Lemma deque_append_full d x :
  length (items d) = maxlen d ->
  items (deque_append d x) = drop 1 (items d ++ [x]).
Proof.
  intros Hd. unfold deque_append. simpl.
  rewrite decide_True; [reflexivity | rewrite length_app; simpl; lia].
Qed.

Lemma deque_append_items d x :
  deque_ok d ->
  items (deque_append d x) = lastn (maxlen d) (items d ++ [x]).
Proof.
  unfold deque_ok. intros Hd.
  destruct (decide (length (items d) = maxlen d)) as [Heq | Hne].
  - rewrite deque_append_full by done.
    unfold lastn. rewrite length_app. simpl. f_equal. lia.
  - rewrite deque_append_room by lia.
    symmetry. apply lastn_short. rewrite length_app. simpl. lia.
Qed.

Lemma deque_extend_maxlen d xs : maxlen (deque_extend d xs) = maxlen d.
Proof.
  revert d. induction xs as [| x xs IH]; intros d; [reflexivity |].
  unfold deque_extend in *. simpl. rewrite IH. reflexivity.
Qed.

Lemma deque_extend_ok d xs : deque_ok d -> deque_ok (deque_extend d xs).
Proof.
  revert d. induction xs as [| x xs IH]; intros d Hd; [exact Hd |].
  unfold deque_extend in *. simpl. apply IH, deque_append_ok, Hd.
Qed.

(** Whatever is appended, the deque holds the last [maxlen] items of
    everything it was given, in the order given. *)
Lemma deque_extend_items d xs :
  deque_ok d ->
  items (deque_extend d xs) = lastn (maxlen d) (items d ++ xs).
Proof.
  revert d. induction xs as [| x xs IH]; intros d Hd.
  - simpl. rewrite app_nil_r. symmetry. apply lastn_short, Hd.
  - unfold deque_extend in *. simpl.
    rewrite IH by (apply deque_append_ok, Hd).
    rewrite deque_append_maxlen, deque_append_items by exact Hd.
    rewrite lastn_app_lastn, <- app_assoc. reflexivity.
Qed.
End DequeFacts.

(** ** What the store operations do *)

Lemma stored_lookup w user_id d :
  user_messages w !! user_id = Some d -> stored w user_id = d.
Proof. intros H. unfold stored. rewrite H. reflexivity. Qed.

Lemma stored_fresh w user_id :
  user_messages w !! user_id = None -> stored w user_id = default_factory.
Proof. intros H. unfold stored. rewrite H. reflexivity. Qed.

Lemma history_stored w user_id :
  history w user_id = items (stored w user_id).
Proof. unfold history, stored. destruct (user_messages w !! user_id); reflexivity. Qed.

Lemma user_messages_append_eq user_id x w :
  user_messages_append user_id x w =
  (Ok tt, set_user_messages
            (<[user_id := deque_append (stored w user_id) x]> (user_messages w)) w).
Proof.
  unfold user_messages_append, bind, user_messages_getitem, stored.
  destruct (user_messages w !! user_id) as [d |]; simpl; [reflexivity |].
  rewrite insert_insert_eq. reflexivity.
Qed.

Lemma format_messages_for_api_eq user_id new_message w :
  let d1 := deque_append (stored w user_id) (user_entry new_message) in
  format_messages_for_api user_id new_message w =
  (Ok (system_message :: items d1),
   set_user_messages (<[user_id := d1]> (user_messages w)) w).
Proof.
  intros d1. unfold format_messages_for_api, bind.
  rewrite user_messages_append_eq.
  unfold user_messages_getitem. simpl.
  rewrite lookup_insert_eq. reflexivity.
Qed.

Section BotFacts.
Variable environ : gmap string string.

(** [get_ai_response], one path at a time. *)
Lemma get_ai_response_raises client user_id user_message w e :
  client (request_of environ w user_id user_message) = Raises e ->
  get_ai_response environ client user_id user_message w =
  (Ok apology,
   {| user_messages :=
        <[user_id := deque_append (stored w user_id) (user_entry user_message)]>
          (user_messages w);
      stdout := stdout w ++ ["Ошибка при обращении к ИИ: " +:+ exc_str e];
      api_calls := api_calls w ++ [request_of environ w user_id user_message];
      sent := sent w |}).
Proof.
  intros He. unfold get_ai_response, try_except, bind.
  rewrite format_messages_for_api_eq.
  unfold chat_completions_create. fold (request_of environ w user_id user_message).
  simpl. rewrite He. reflexivity.
Qed.

Lemma get_ai_response_no_choice client user_id user_message w :
  client (request_of environ w user_id user_message) = Returns {| choices := [] |} ->
  get_ai_response environ client user_id user_message w =
  (Ok apology,
   {| user_messages :=
        <[user_id := deque_append (stored w user_id) (user_entry user_message)]>
          (user_messages w);
      stdout := stdout w ++
                  ["Ошибка при обращении к ИИ: list index out of range"];
      api_calls := api_calls w ++ [request_of environ w user_id user_message];
      sent := sent w |}).
Proof.
  intros He. unfold get_ai_response, try_except, bind.
  rewrite format_messages_for_api_eq.
  unfold chat_completions_create. fold (request_of environ w user_id user_message).
  simpl. rewrite He. reflexivity.
Qed.

Lemma get_ai_response_text client user_id user_message w r :
  first_text (client (request_of environ w user_id user_message)) = Some r ->
  get_ai_response environ client user_id user_message w =
  (Ok r,
   {| user_messages :=
        <[user_id :=
            deque_append
              (deque_append (stored w user_id) (user_entry user_message))
              (assistant_entry r)]>
          (user_messages w);
      stdout := stdout w;
      api_calls := api_calls w ++ [request_of environ w user_id user_message];
      sent := sent w |}).
Proof.
  intros Hr. unfold get_ai_response, try_except, bind.
  rewrite format_messages_for_api_eq.
  unfold chat_completions_create. fold (request_of environ w user_id user_message).
  simpl. unfold first_text in Hr.
  destruct (client (request_of environ w user_id user_message)) as [resp | e];
    [| discriminate].
  unfold list_getitem.
  destruct (choices resp !! 0%nat) as [c |]; [| discriminate].
  injection Hr as <-. simpl.
  rewrite user_messages_append_eq. unfold stored, set_user_messages. simpl.
  rewrite lookup_insert_eq, insert_insert_eq. reflexivity.
Qed.

(** The provider call ends in one of three ways. *)
Lemma outcome_cases (o : outcome) :
  (exists e, o = Raises e) \/ o = Returns {| choices := [] |} \/
  (exists r, first_text o = Some r).
Proof.
  destruct o as [[[| c cs]] | e]; [right; left | right; right | left].
  - reflexivity.
  - exists (msg_content (choice_message c)). reflexivity.
  - exists e. reflexivity.
Qed.
End BotFacts.

(** ** The invariant of the store *)

Lemma history_ok_default : history_ok default_factory.
Proof.
  unfold history_ok, default_factory, deque_ok. simpl.
  repeat split; [lia | constructor].
Qed.

Lemma history_ok_append d x :
  history_ok d -> stored_role x -> history_ok (deque_append d x).
Proof.
  intros (Hmax & Hok & Hroles) Hx. repeat split.
  - exact Hmax.
  - apply deque_append_ok, Hok.
  - unfold deque_append. simpl. case_decide.
    + apply Forall_drop, Forall_app. split; [exact Hroles | by constructor].
    + apply Forall_app. split; [exact Hroles | by constructor].
Qed.

Lemma history_ok_clear d : history_ok d -> history_ok (deque_clear d).
Proof.
  intros (Hmax & _ & _). unfold history_ok, deque_ok. simpl.
  repeat split; [exact Hmax | lia | constructor].
Qed.

Lemma user_entry_role t : stored_role (user_entry t).
Proof. left. reflexivity. Qed.

Lemma assistant_entry_role r : stored_role (assistant_entry r).
Proof. right. reflexivity. Qed.

Lemma store_ok_initial : store_ok initial_world.
Proof. intros user_id d H. simpl in H. rewrite lookup_empty in H. discriminate. Qed.

Lemma store_ok_stored w user_id : store_ok w -> history_ok (stored w user_id).
Proof.
  intros Hw. unfold stored.
  destruct (user_messages w !! user_id) as [d |] eqn:Hd; simpl.
  - exact (Hw _ _ Hd).
  - exact history_ok_default.
Qed.

Lemma store_ok_insert w w' user_id d :
  store_ok w -> history_ok d ->
  user_messages w' = <[user_id := d]> (user_messages w) ->
  store_ok w'.
Proof.
  intros Hw Hd Heq other d' Hlook. rewrite Heq in Hlook.
  destruct (decide (user_id = other)) as [-> | Hne].
  - rewrite lookup_insert_eq in Hlook. injection Hlook as <-. exact Hd.
  - rewrite lookup_insert_ne in Hlook by exact Hne. exact (Hw _ _ Hlook).
Qed.

Lemma store_ok_same w w' :
  store_ok w -> user_messages w' = user_messages w -> store_ok w'.
Proof. intros Hw Heq user_id d Hlook. rewrite Heq in Hlook. exact (Hw _ _ Hlook). Qed.

Section Invariant.
Variable environ : gmap string string.

Lemma get_ai_response_store_ok client user_id user_message w :
  store_ok w ->
  store_ok (snd (get_ai_response environ client user_id user_message w)).
Proof.
  intros Hw.
  pose proof (store_ok_stored w user_id Hw) as Hd.
  pose proof (history_ok_append _ _ Hd (user_entry_role user_message)) as Hd1.
  destruct (outcome_cases (client (request_of environ w user_id user_message)))
    as [[e He] | [He | [r Hr]]].
  - rewrite (get_ai_response_raises _ _ _ _ _ _ He). simpl.
    eapply store_ok_insert; [exact Hw | exact Hd1 | reflexivity].
  - rewrite (get_ai_response_no_choice _ _ _ _ _ He). simpl.
    eapply store_ok_insert; [exact Hw | exact Hd1 | reflexivity].
  - rewrite (get_ai_response_text _ _ _ _ _ _ Hr). simpl.
    eapply store_ok_insert; [exact Hw | | reflexivity].
    apply history_ok_append; [exact Hd1 | apply assistant_entry_role].
Qed.

Lemma cmd_start_store_ok message w :
  store_ok w -> store_ok (snd (cmd_start message w)).
Proof.
  intros Hw. unfold cmd_start, bind, user_messages_contains. simpl.
  case_bool_decide as Hknown.
  - destruct Hknown as [d Hd].
    unfold user_messages_clear, bind, user_messages_getitem.
    rewrite Hd. simpl.
    eapply store_ok_insert; [exact Hw | | reflexivity].
    apply history_ok_clear, (Hw _ _ Hd).
  - simpl. eapply store_ok_same; [exact Hw | reflexivity].
Qed.

Lemma handle_text_message_store_ok client message w :
  store_ok w -> store_ok (snd (handle_text_message environ client message w)).
Proof.
  intros Hw. unfold handle_text_message.
  destruct (text_truthy (text message)); simpl.
  - unfold bind, send_chat_action.
    match goal with
    | |- context [get_ai_response ?e ?c ?u ?m ?w0] =>
        pose proof (get_ai_response_store_ok c u m w0) as Hstep;
        destruct (get_ai_response e c u m w0) as [[r | e0] w1]
    end; simpl in *.
    + eapply store_ok_same; [apply Hstep | reflexivity].
      eapply store_ok_same; [exact Hw | reflexivity].
    + apply Hstep. eapply store_ok_same; [exact Hw | reflexivity].
  - eapply store_ok_same; [exact Hw | reflexivity].
Qed.

Lemma handle_store_ok ev w : store_ok w -> store_ok (snd (handle environ ev w)).
Proof.
  intros Hw. destruct ev as [message | message | message client]; simpl.
  - apply cmd_start_store_ok, Hw.
  - eapply store_ok_same; [exact Hw | reflexivity].
  - apply handle_text_message_store_ok, Hw.
Qed.

(** Every state the process reaches keeps the store well formed. *)
Lemma reachable_store_ok w : reachable environ w -> store_ok w.
Proof.
  induction 1 as [| w ev _ IH].
  - exact store_ok_initial.
  - apply handle_store_ok, IH.
Qed.

Lemma run_reachable evs w : reachable environ w -> reachable environ (run environ evs w).
Proof.
  revert w. induction evs as [| ev evs IH]; intros w Hw; [exact Hw |].
  unfold run in *. simpl. apply IH. constructor. exact Hw.
Qed.
End Invariant.

(** ** The claims *)

Section Claims.
Variable environ : gmap string string.

Lemma stored_maxlen w user_id :
  reachable environ w -> maxlen (stored w user_id) = 10%nat.
Proof.
  intros Hw. apply (store_ok_stored w user_id (reachable_store_ok _ _ Hw)).
Qed.

Lemma stored_deque_ok w user_id :
  reachable environ w -> deque_ok (stored w user_id).
Proof.
  intros Hw. apply (store_ok_stored w user_id (reachable_store_ok _ _ Hw)).
Qed.

(** The history after the user's entry went in. *)
Lemma history_after_user w user_id t um :
  reachable environ w ->
  um = <[user_id := deque_append (stored w user_id) (user_entry t)]>
         (user_messages w) ->
  forall w', user_messages w' = um ->
  history w' user_id = lastn 10 (history w user_id ++ [user_entry t]).
Proof.
  intros Hw -> w' Hw'. unfold history at 1. rewrite Hw', lookup_insert_eq.
  rewrite deque_append_items by (apply stored_deque_ok, Hw).
  rewrite stored_maxlen by exact Hw. rewrite history_stored. reflexivity.
Qed.


Lemma get_ai_response_api_calls client user_id user_message w :
  api_calls (snd (get_ai_response environ client user_id user_message w)) =
  api_calls w ++ [request_of environ w user_id user_message].
Proof.
  destruct (outcome_cases (client (request_of environ w user_id user_message)))
    as [[e He] | [He | [r Hr]]].
  - rewrite (get_ai_response_raises _ _ _ _ _ _ He). reflexivity.
  - rewrite (get_ai_response_no_choice _ _ _ _ _ He). reflexivity.
  - rewrite (get_ai_response_text _ _ _ _ _ _ Hr). reflexivity.
Qed.

(** C1.  Whatever is appended to a user's history, it never holds more
    than 10 entries: it holds the last 10 of everything it was given, in
    order; and an append to a history of 10 entries drops the oldest
    entry and puts the new one last. *)
Theorem history_bounded_fifo w user_id (xs : list entry) :
  reachable environ w ->
  let d := deque_extend (stored w user_id) xs in
  (length (items d) <= 10)%nat /\
  items d = lastn 10 (history w user_id ++ xs) /\
  (forall x, length (items d) = 10%nat ->
     exists oldest rest,
       items d = oldest :: rest /\ items (deque_append d x) = rest ++ [x]).
Proof.
  intros Hw d.
  pose proof (stored_deque_ok w user_id Hw) as Hok.
  pose proof (stored_maxlen w user_id Hw) as Hmax.
  assert (Hd : deque_ok d) by (apply deque_extend_ok, Hok).
  assert (Hdmax : maxlen d = 10%nat)
    by (unfold d; rewrite deque_extend_maxlen; exact Hmax).
  split; [| split].
  - unfold deque_ok in Hd. rewrite Hdmax in Hd. exact Hd.
  - unfold d. rewrite deque_extend_items by exact Hok.
    rewrite Hmax, history_stored. reflexivity.
  - intros x Hfull.
    destruct (items d) as [| oldest rest] eqn:Hitems; [discriminate |].
    exists oldest, rest. split; [reflexivity |].
    rewrite deque_append_full by (rewrite Hitems, Hdmax; exact Hfull).
    rewrite Hitems. reflexivity.
Qed.



(** C4.  The list [format_messages_for_api] returns is the system entry
    followed by the whole history of the user as it is after the call,
    which is the old history with the new user entry appended last
    (oldest first); for a user without history it is the system entry
    and the user entry.  It is the list [get_ai_response] submits. *)
Theorem request_is_system_then_history client user_id new_message w :
  reachable environ w ->
  let res := format_messages_for_api user_id new_message w in
  fst res = Ok (system_message :: history (snd res) user_id) /\
  history (snd res) user_id =
    lastn 10 (history w user_id ++ [user_entry new_message]) /\
  last (history (snd res) user_id) = Some (user_entry new_message) /\
  (history w user_id = [] ->
     fst res = Ok [system_message; user_entry new_message]) /\
  (exists req,
     last (api_calls
             (snd (get_ai_response environ client user_id new_message w)))
       = Some req /\
     fst res = Ok (req_messages req)).
Proof.
  intros Hw res. unfold res. rewrite format_messages_for_api_eq. cbn [fst snd].
  match goal with
  | |- _ = Ok (_ :: history ?w' _) /\ _ =>
      assert (Hh : history w' user_id =
                   lastn 10 (history w user_id ++ [user_entry new_message]))
        by (eapply history_after_user; [exact Hw | reflexivity | reflexivity]);
      assert (Hi : history w' user_id =
                   items (deque_append (stored w user_id)
                                       (user_entry new_message)))
        by (unfold history; simpl; rewrite lookup_insert_eq; reflexivity)
  end.
  split; [rewrite Hi; reflexivity |].
  split; [exact Hh |].
  split; [rewrite Hh; apply lastn_snoc; lia |].
  split.
  - intros Hempty. rewrite <- Hi, Hh, Hempty. reflexivity.
  - exists (request_of environ w user_id new_message).
    rewrite get_ai_response_api_calls, last_snoc. split; reflexivity.
Qed.






(** C7.  [cmd_start] ends normally and leaves the user's history empty;
    when the user has no key in the store it leaves the store as it was
    (no key is created); other users are untouched; and the next append
    to that user's history gives a history of exactly one entry. *)
Theorem reset_clears_history message w :
  reachable environ w ->
  let user_id := from_user_id message in
  let res := cmd_start message w in
  fst res = Ok tt /\
  history (snd res) user_id = [] /\
  (user_messages w !! user_id = None ->
     user_messages (snd res) = user_messages w) /\
  (forall other, other <> user_id ->
     user_messages (snd res) !! other = user_messages w !! other) /\
  (forall x,
     history (snd (user_messages_append user_id x (snd res))) user_id = [x] /\
     length (history (snd (user_messages_append user_id x (snd res))) user_id)
       = 1%nat).
Proof.
  intros Hw user_id res.
  pose proof (reachable_store_ok _ _ Hw) as Hok.
  unfold res, cmd_start, bind, user_messages_contains. fold user_id.
  cbn [fst snd].
  destruct (user_messages w !! user_id) as [d |] eqn:Hd.
  - rewrite bool_decide_eq_true_2 by eauto.
    unfold user_messages_clear, bind, user_messages_getitem.
    rewrite Hd. cbn [fst snd message_answer].
    destruct (Hok _ _ Hd) as (Hmax & _ & _).
    split; [reflexivity |].
    split; [unfold history; simpl; rewrite lookup_insert_eq; reflexivity |].
    split; [discriminate |].
    split; [intros other Hne; simpl; apply lookup_insert_ne; congruence |].
    intros x. rewrite user_messages_append_eq.
    unfold history, stored. simpl. rewrite !lookup_insert_eq. simpl.
    rewrite Hmax. split; reflexivity.
  - rewrite bool_decide_eq_false_2 by (intros [d Hsome]; discriminate).
    cbn [fst snd ret message_answer].
    split; [reflexivity |].
    split; [unfold history; simpl; rewrite Hd; reflexivity |].
    split; [reflexivity |].
    split; [reflexivity |].
    intros x. rewrite user_messages_append_eq.
    unfold history, stored. simpl. rewrite Hd, lookup_insert_eq.
    split; reflexivity.
Qed.

(** C8.  For a message whose text is absent or empty, the text handler
    answers with the corrective prompt and changes nothing else: the
    store is the same, no provider call is made and nothing is printed. *)
Theorem textless_message_leaves_store client message w :
  text message = None \/ text message = Some "" ->
  let res := handle_text_message environ client message w in
  fst res = Ok tt /\
  sent (snd res) = sent w ++ [Answer (chat_id message) corrective_prompt] /\
  user_messages (snd res) = user_messages w /\
  api_calls (snd res) = api_calls w /\
  stdout (snd res) = stdout w.
Proof.
  intros Htext res. unfold res, handle_text_message.
  destruct Htext as [-> | ->]; repeat split.
Qed.

(** C9.  Each call of [get_ai_response] makes one provider call; its
    temperature is 0.7 and its model is the value of [OPENROUTER_MODEL]
    in the environment, or [google/gemini-pro-1.5] when that variable is
    not set. *)
Theorem provider_call_parameters client user_id user_message w :
  exists req,
    api_calls (snd (get_ai_response environ client user_id user_message w)) =
      api_calls w ++ [req] /\
    req_temperature req = Qmake 7 10 /\
    req_model req = DEFAULT_MODEL environ /\
    req_model req =
      match environ !! "OPENROUTER_MODEL" with
      | Some configured => configured
      | None => "google/gemini-pro-1.5"
      end.
Proof.
  exists (request_of environ w user_id user_message).
  rewrite get_ai_response_api_calls. repeat split.
Qed.

Lemma stored_role_not_system e : stored_role e -> role e <> "system".
Proof. intros [-> | ->]; discriminate. Qed.

(** C10.  In every state the process reaches, every entry of every
    stored history has role [user] or [assistant], never [system]; the
    system entry only heads the list that is handed out for the
    provider, and the rest of that list, which is what the store holds,
    does not contain it. *)
Theorem stored_entries_never_system w :
  reachable environ w ->
  (forall user_id d e,
     user_messages w !! user_id = Some d -> e ∈ items d ->
     (role e = "user" \/ role e = "assistant") /\ role e <> "system") /\
  (forall user_id new_message,
     let res := format_messages_for_api user_id new_message w in
     fst res = Ok (system_message :: history (snd res) user_id) /\
     system_message ∉ history (snd res) user_id).
Proof.
  intros Hw. pose proof (reachable_store_ok _ _ Hw) as Hok. split.
  - intros user_id d e Hd He.
    destruct (Hok _ _ Hd) as (_ & _ & Hroles).
    rewrite Forall_forall in Hroles. specialize (Hroles _ He).
    split; [exact Hroles | apply stored_role_not_system, Hroles].
  - intros user_id new_message res. unfold res.
    rewrite format_messages_for_api_eq. cbn [fst snd].
    assert (Hi : forall w',
               user_messages w' =
                 <[user_id := deque_append (stored w user_id)
                                (user_entry new_message)]> (user_messages w) ->
               history w' user_id =
                 items (deque_append (stored w user_id)
                                     (user_entry new_message)))
      by (intros w' Hw'; unfold history; rewrite Hw', lookup_insert_eq;
          reflexivity).
    rewrite Hi by reflexivity. split; [reflexivity |].
    intros Hin.
    pose proof (history_ok_append _ _ (store_ok_stored w user_id Hok)
                  (user_entry_role new_message)) as (_ & _ & Hroles).
    rewrite Forall_forall in Hroles.
    exact (stored_role_not_system _ (Hroles _ Hin) eq_refl).
Qed.
End Claims.

(** ** The claims at sample inputs *)

Lemma busy_world_reachable : reachable ∅ busy_world.
Proof. apply run_reachable, reachable_initial. Qed.

Lemma history_bounded_fifo_witness :
  reachable ∅ busy_world /\
  let d := deque_extend (stored busy_world 7) [user_entry "6"] in
  (length (items d) <= 10)%nat /\
  items d = lastn 10 (history busy_world 7 ++ [user_entry "6"]) /\
  (forall x, length (items d) = 10%nat ->
     exists oldest rest,
       items d = oldest :: rest /\ items (deque_append d x) = rest ++ [x]).
Proof.
  split; [exact busy_world_reachable |].
  apply (history_bounded_fifo ∅ busy_world 7 [user_entry "6"]).
  exact busy_world_reachable.
Defined.



Lemma request_is_system_then_history_witness :
  reachable ∅ initial_world /\
  let res := format_messages_for_api 7 "hello" initial_world in
  fst res = Ok (system_message :: history (snd res) 7) /\
  history (snd res) 7 = lastn 10 (history initial_world 7 ++ [user_entry "hello"]) /\
  last (history (snd res) 7) = Some (user_entry "hello") /\
  (history initial_world 7 = [] ->
     fst res = Ok [system_message; user_entry "hello"]) /\
  (exists req,
     last (api_calls
             (snd (get_ai_response ∅ (replying "hi") 7 "hello" initial_world)))
       = Some req /\
     fst res = Ok (req_messages req)).
Proof.
  split; [exact (reachable_initial ∅) |].
  apply (request_is_system_then_history ∅ (replying "hi") 7 "hello" initial_world).
  exact (reachable_initial ∅).
Defined.



Lemma reset_clears_history_witness :
  reachable ∅ busy_world /\
  let user_id := from_user_id (text_message 7 "/start") in
  let res := cmd_start (text_message 7 "/start") busy_world in
  fst res = Ok tt /\
  history (snd res) user_id = [] /\
  (user_messages busy_world !! user_id = None ->
     user_messages (snd res) = user_messages busy_world) /\
  (forall other, other <> user_id ->
     user_messages (snd res) !! other = user_messages busy_world !! other) /\
  (forall x,
     history (snd (user_messages_append user_id x (snd res))) user_id = [x] /\
     length (history (snd (user_messages_append user_id x (snd res))) user_id)
       = 1%nat).
Proof.
  split; [exact busy_world_reachable |].
  apply (reset_clears_history ∅ (text_message 7 "/start") busy_world).
  exact busy_world_reachable.
Defined.

Lemma textless_message_leaves_store_witness :
  (text photo_message = None \/ text photo_message = Some "") /\
  let res := handle_text_message ∅ (replying "never asked") photo_message busy_world in
  fst res = Ok tt /\
  sent (snd res) = sent busy_world ++ [Answer (chat_id photo_message) corrective_prompt] /\
  user_messages (snd res) = user_messages busy_world /\
  api_calls (snd res) = api_calls busy_world /\
  stdout (snd res) = stdout busy_world.
Proof.
  split; [left; reflexivity |].
  apply (textless_message_leaves_store ∅ (replying "never asked") photo_message busy_world).
  left. reflexivity.
Defined.

Lemma stored_entries_never_system_witness :
  reachable ∅ busy_world /\
  (forall user_id d e,
     user_messages busy_world !! user_id = Some d -> e ∈ items d ->
     (role e = "user" \/ role e = "assistant") /\ role e <> "system") /\
  (forall user_id new_message,
     let res := format_messages_for_api user_id new_message busy_world in
     fst res = Ok (system_message :: history (snd res) user_id) /\
     system_message ∉ history (snd res) user_id).
Proof.
  split; [exact busy_world_reachable |].
  apply (stored_entries_never_system ∅ busy_world).
  exact busy_world_reachable.
Defined.

(** * Further properties of the handlers *)

#[local] Set Warnings "-clear-no-such-hyp".

Section Handlers.
Variable environ : gmap string string.

(** [get_ai_response] in one equation, over the three ways the provider
    call can end. *)
Lemma get_ai_response_eq client user_id user_message w :
  let o := client (request_of environ w user_id user_message) in
  get_ai_response environ client user_id user_message w =
  (Ok (default apology (first_text o)),
   {| user_messages :=
        <[user_id := deque_extend (stored w user_id)
                       (call_entries user_message o)]> (user_messages w);
      stdout := stdout w ++ failure_lines o;
      api_calls := api_calls w ++ [request_of environ w user_id user_message];
      sent := sent w |}).
Proof.
  intros o. subst o.
  destruct (outcome_cases (client (request_of environ w user_id user_message)))
    as [[e He] | [He | [r Hr]]].
  - rewrite (get_ai_response_raises _ _ _ _ _ _ He), He. reflexivity.
  - rewrite (get_ai_response_no_choice _ _ _ _ _ He), He. reflexivity.
  - rewrite (get_ai_response_text _ _ _ _ _ _ Hr).
    unfold call_entries, failure_lines. rewrite Hr. unfold first_text in Hr.
    destruct (client (request_of environ w user_id user_message)) as [resp | e];
      [| discriminate].
    destruct (choices resp !! 0%nat); [| discriminate].
    rewrite app_nil_r. reflexivity.
Qed.

(** The text handler on a message that carries text. *)
Lemma handle_text_message_eq client message w :
  text_truthy (text message) = true ->
  let user_id := from_user_id message in
  let t := default "" (text message) in
  let o := client (request_of environ w user_id t) in
  handle_text_message environ client message w =
  (Ok tt,
   {| user_messages :=
        <[user_id := deque_extend (stored w user_id) (call_entries t o)]>
          (user_messages w);
      stdout := stdout w ++ failure_lines o;
      api_calls := api_calls w ++ [request_of environ w user_id t];
      sent := sent w ++ [ChatAction (chat_id message) "typing";
                         Answer (chat_id message)
                                (default apology (first_text o))] |}).
Proof.
  intros Htext user_id t o. unfold handle_text_message. rewrite Htext.
  cbn [negb]. unfold bind, send_chat_action.
  rewrite get_ai_response_eq. unfold message_answer.
  cbn [sent user_messages stdout api_calls].
  rewrite <- app_assoc. reflexivity.
Qed.

(** The text handler on a message without text. *)
Lemma handle_text_message_textless client message w :
  text_truthy (text message) = false ->
  handle_text_message environ client message w =
  (Ok tt,
   {| user_messages := user_messages w; stdout := stdout w;
      api_calls := api_calls w;
      sent := sent w ++ [Answer (chat_id message) corrective_prompt] |}).
Proof. intros Htext. unfold handle_text_message. rewrite Htext. reflexivity. Qed.

(** [cmd_start] on a user the store knows, and on one it does not. *)
Lemma cmd_start_known message w d :
  user_messages w !! from_user_id message = Some d ->
  cmd_start message w =
  (Ok tt,
   {| user_messages := <[from_user_id message := deque_clear d]> (user_messages w);
      stdout := stdout w; api_calls := api_calls w;
      sent := sent w ++ [Answer (chat_id message) welcome_text] |}).
Proof.
  intros Hd. unfold cmd_start, bind, user_messages_contains. cbn [fst snd].
  rewrite bool_decide_eq_true_2 by eauto.
  unfold user_messages_clear, bind, user_messages_getitem. rewrite Hd.
  reflexivity.
Qed.

Lemma cmd_start_unknown message w :
  user_messages w !! from_user_id message = None ->
  cmd_start message w =
  (Ok tt,
   {| user_messages := user_messages w;
      stdout := stdout w; api_calls := api_calls w;
      sent := sent w ++ [Answer (chat_id message) welcome_text] |}).
Proof.
  intros Hd. unfold cmd_start, bind, user_messages_contains. cbn [fst snd].
  rewrite bool_decide_eq_false_2 by (rewrite Hd; intros [d Hsome]; discriminate).
  reflexivity.
Qed.

Lemma handle_frame ev w other :
  other <> event_user ev ->
  user_messages (snd (handle environ ev w)) !! other = user_messages w !! other.
Proof.
  intros Hne. unfold event_user in Hne.
  destruct ev as [message | message | message client];
    cbn [handle event_message] in *.
  - destruct (user_messages w !! from_user_id message) as [d |] eqn:Hd.
    + rewrite (cmd_start_known _ _ _ Hd). cbn [snd user_messages].
      apply lookup_insert_ne. congruence.
    + rewrite (cmd_start_unknown _ _ Hd). reflexivity.
  - reflexivity.
  - destruct (text_truthy (text message)) eqn:Htext.
    + rewrite (handle_text_message_eq _ _ _ Htext). cbn [snd user_messages].
      apply lookup_insert_ne. congruence.
    + rewrite (handle_text_message_textless _ _ _ Htext). reflexivity.
Qed.

(** However many events are handled, the store entry of a user who sent
    none of them is untouched: the deque stored for that user, or its
    absence, is the same before and after. *)
Theorem run_other_users_untouched evs w other :
  Forall (fun ev => event_user ev <> other) evs ->
  user_messages (run environ evs w) !! other = user_messages w !! other.
Proof.
  intros Hall. revert w.
  induction Hall as [| ev evs Hev _ IH]; intros w; [reflexivity |].
  unfold run in *. cbn [foldl]. rewrite IH.
  apply handle_frame. congruence.
Qed.

Lemma handle_dom ev w :
  dom (user_messages (snd (handle environ ev w))) =
  dom (user_messages w) ∪
  (if forwards ev then {[event_user ev]} else ∅ : gset Z).
Proof.
  unfold event_user.
  destruct ev as [message | message | message client];
    cbn [handle forwards event_message].
  - destruct (user_messages w !! from_user_id message) as [d |] eqn:Hd.
    + rewrite (cmd_start_known _ _ _ Hd). cbn [snd user_messages].
      rewrite dom_insert_L.
      assert (from_user_id message ∈ dom (user_messages w))
        by (apply elem_of_dom; eauto).
      set_solver.
    + rewrite (cmd_start_unknown _ _ Hd). cbn [snd user_messages]. set_solver.
  - cbn. set_solver.
  - destruct (text_truthy (text message)) eqn:Htext.
    + rewrite (handle_text_message_eq _ _ _ Htext). cbn [snd user_messages].
      rewrite dom_insert_L. set_solver.
    + rewrite (handle_text_message_textless _ _ _ Htext).
      cbn [snd user_messages]. set_solver.
Qed.

(** Over any run, the users the store has a key for are those it had
    before and those who sent a message with text: a key is made by the
    first such message, [cmd_start] and [cmd_help] make none, and no key
    is ever removed. *)
Theorem store_keys_only_grow evs w :
  dom (user_messages (run environ evs w)) =
  dom (user_messages w) ∪
  (list_to_set (map event_user (List.filter forwards evs)) : gset Z).
Proof.
  revert w. induction evs as [| ev evs IH]; intros w.
  - cbn. set_solver.
  - unfold run in *. cbn [foldl List.filter]. rewrite IH, handle_dom.
    destruct (forwards ev); cbn [map list_to_set]; set_solver.
Qed.

Lemma history_lookup w user_id d :
  user_messages w !! user_id = Some d -> history w user_id = items d.
Proof. intros Hd. unfold history. rewrite Hd. reflexivity. Qed.


Lemma history_after_extend w w' user_id xs :
  reachable environ w ->
  user_messages w' =
    <[user_id := deque_extend (stored w user_id) xs]> (user_messages w) ->
  history w' user_id = lastn 10 (history w user_id ++ xs).
Proof.
  intros Hw Hw'.
  rewrite (history_lookup w' user_id _ ltac:(rewrite Hw'; apply lookup_insert_eq)).
  rewrite deque_extend_items by (apply (stored_deque_ok environ), Hw).
  rewrite (stored_maxlen environ) by exact Hw.
  rewrite history_stored. reflexivity.
Qed.


(** A response without any choice is handled like a failed call: the
    index error is caught, its message is printed, the apology is
    returned, and the history gains the user's entry and nothing else. *)
Theorem empty_choices_handled_as_failure client user_id user_message w response :
  reachable environ w ->
  client (request_of environ w user_id user_message) = Returns response ->
  choices response = [] ->
  let res := get_ai_response environ client user_id user_message w in
  fst res = Ok apology /\
  history (snd res) user_id =
    lastn 10 (history w user_id ++ [user_entry user_message]) /\
  last (history (snd res) user_id) = Some (user_entry user_message) /\
  stdout (snd res) =
    stdout w ++ ["Ошибка при обращении к ИИ: list index out of range"].
Proof.
  intros Hw Hresp Hnone res. unfold res. rewrite get_ai_response_eq.
  rewrite Hresp.
  assert (Hft : first_text (Returns response) = None)
    by (unfold first_text; rewrite Hnone; reflexivity).
  unfold failure_lines, call_entries. rewrite Hft, Hnone.
  cbn [lookup list_lookup default fst snd stdout].
  assert (Hh : forall w',
             user_messages w' =
               <[user_id := deque_extend (stored w user_id)
                              [user_entry user_message]]> (user_messages w) ->
             history w' user_id =
               lastn 10 (history w user_id ++ [user_entry user_message]))
    by (intros w' Hw'; apply history_after_extend; assumption).
  rewrite Hh by reflexivity.
  repeat split. apply lastn_snoc. lia.
Qed.

Lemma handle_text_api_calls client message w :
  text_truthy (text message) = true ->
  api_calls (snd (handle_text_message environ client message w)) =
  api_calls w ++
  [request_of environ w (from_user_id message) (default "" (text message))].
Proof. intros Htext. rewrite (handle_text_message_eq _ _ _ Htext). reflexivity. Qed.

Lemma text_truthy_some t : t <> "" -> text_truthy (Some t) = true.
Proof.
  intros Ht. unfold text_truthy. rewrite bool_decide_eq_false_2 by exact Ht.
  reflexivity.
Qed.




(** [cmd_start] a second time changes nothing in the store. *)
Theorem cmd_start_twice message1 message2 w :
  from_user_id message1 = from_user_id message2 ->
  user_messages (snd (cmd_start message2 (snd (cmd_start message1 w)))) =
  user_messages (snd (cmd_start message1 w)).
Proof.
  intros Huser.
  destruct (user_messages w !! from_user_id message1) as [d |] eqn:Hd.
  - rewrite (cmd_start_known _ _ _ Hd). cbn [snd].
    erewrite cmd_start_known
      by (cbn [user_messages]; rewrite <- Huser; apply lookup_insert_eq).
    cbn [snd user_messages]. rewrite <- Huser. apply insert_insert_eq.
  - rewrite (cmd_start_unknown _ _ Hd). cbn [snd].
    rewrite cmd_start_unknown by (cbn [user_messages]; rewrite <- Huser; exact Hd).
    reflexivity.
Qed.

(** *** The requests the provider gets *)

Lemma request_of_ok w user_id t :
  reachable environ w -> request_ok environ (request_of environ w user_id t).
Proof.
  intros Hw. split; [reflexivity |]. split; [reflexivity |].
  pose proof (stored_deque_ok environ w user_id Hw) as Hok.
  pose proof (stored_maxlen environ w user_id Hw) as Hmax.
  destruct (store_ok_stored w user_id (reachable_store_ok _ _ Hw))
    as (_ & _ & Hroles).
  pose proof Hok as Hlen. unfold deque_ok in Hlen. rewrite Hmax in Hlen.
  exists (drop (length (items (stored w user_id)) + 1 - 10)
               (items (stored w user_id))), t.
  split; [| split].
  - unfold request_of. cbn [req_messages]. f_equal.
    rewrite deque_append_items by exact Hok.
    rewrite Hmax. unfold lastn. rewrite length_app. cbn [length].
    apply drop_app_le. lia.
  - rewrite length_drop. lia.
  - apply Forall_drop, Hroles.
Qed.

Lemma handle_calls_ok ev w :
  reachable environ w ->
  Forall (request_ok environ) (api_calls w) ->
  Forall (request_ok environ) (api_calls (snd (handle environ ev w))).
Proof.
  intros Hw Hcalls.
  destruct ev as [message | message | message client]; cbn [handle].
  - destruct (user_messages w !! from_user_id message) as [d |] eqn:Hd.
    + rewrite (cmd_start_known _ _ _ Hd). exact Hcalls.
    + rewrite (cmd_start_unknown _ _ Hd). exact Hcalls.
  - exact Hcalls.
  - destruct (text_truthy (text message)) eqn:Htext.
    + rewrite (handle_text_api_calls _ _ _ Htext).
      apply Forall_app. split; [exact Hcalls |].
      constructor; [apply request_of_ok, Hw | constructor].
    + rewrite (handle_text_message_textless _ _ _ Htext). exact Hcalls.
Qed.

(** Every request the provider has been handed, in any state the process
    reaches, carries the configured model and the temperature 0.7, starts
    with the system entry and ends with a user entry, with at most 9
    stored entries between them: never more than 11 messages. *)
Theorem requests_well_formed w :
  reachable environ w ->
  Forall (request_ok environ) (api_calls w) /\
  Forall (fun req => (2 <= length (req_messages req) <= 11)%nat) (api_calls w).
Proof.
  intros Hw.
  assert (Hok : Forall (request_ok environ) (api_calls w)).
  { induction Hw as [| w ev Hw IH]; [constructor |].
    apply handle_calls_ok; assumption. }
  split; [exact Hok |].
  eapply Forall_impl; [exact Hok |].
  intros req (_ & _ & earlier & t & -> & Hlen & _).
  cbn [length]. rewrite length_app. cbn [length]. lia.
Qed.

End Handlers.

(** * What is printed, and what a request depends on *)

Lemma failure_lines_nil o : failure_lines o = [] <-> is_Some (first_text o).
Proof.
  unfold failure_lines, first_text.
  destruct o as [response | e]; [destruct (choices response !! 0%nat) |].
  - split; [eauto | reflexivity].
  - split; [discriminate | intros [r Hr]; discriminate].
  - split; [discriminate | intros [r Hr]; discriminate].
Qed.

(** A handler prints nothing, except the text handler when the provider
    call it made gave no text: then it prints one line, the detail of the
    failure.  Answered messages, commands and messages without text leave
    the output as it was. *)
Theorem handle_prints_only_failures environ ev w :
  let printed := match event_outcome environ ev w with
                 | Some o => failure_lines o
                 | None => []
                 end in
  stdout (snd (handle environ ev w)) = stdout w ++ printed /\
  (length printed <= 1)%nat /\
  (printed = [] <->
   match event_outcome environ ev w with
   | Some o => is_Some (first_text o)
   | None => True
   end).
Proof.
  intros printed. subst printed. split; [| split].
  - destruct ev as [message | message | message client];
      cbn [handle event_outcome].
    + rewrite app_nil_r.
      destruct (user_messages w !! from_user_id message) as [d |] eqn:Hd.
      * rewrite (cmd_start_known _ _ _ Hd). reflexivity.
      * rewrite (cmd_start_unknown _ _ Hd). reflexivity.
    + rewrite app_nil_r. reflexivity.
    + destruct (text_truthy (text message)) eqn:Htext.
      * rewrite (handle_text_message_eq _ _ _ _ Htext). reflexivity.
      * rewrite (handle_text_message_textless _ _ _ _ Htext), app_nil_r.
        reflexivity.
  - destruct (event_outcome environ ev w) as [[response | e] |];
      cbn [failure_lines length]; [| lia | lia].
    destruct (choices response !! 0%nat); cbn [length]; lia.
  - destruct (event_outcome environ ev w) as [o |];
      [apply failure_lines_nil | split; reflexivity || constructor].
Qed.

(** The request made for a user, and so the reply the user gets from a
    given provider, depends on the store only through that user's own
    entry: two states that agree on it give the same request and the same
    reply, whatever the histories of the other users are. *)
Theorem request_depends_on_own_history environ client user_id user_message w1 w2 :
  user_messages w1 !! user_id = user_messages w2 !! user_id ->
  fst (format_messages_for_api user_id user_message w1) =
    fst (format_messages_for_api user_id user_message w2) /\
  last (api_calls (snd (get_ai_response environ client user_id user_message w1))) =
    last (api_calls (snd (get_ai_response environ client user_id user_message w2))) /\
  fst (get_ai_response environ client user_id user_message w1) =
    fst (get_ai_response environ client user_id user_message w2).
Proof.
  intros Hsame.
  assert (Hstored : stored w1 user_id = stored w2 user_id)
    by (unfold stored; rewrite Hsame; reflexivity).
  assert (Hreq : request_of environ w1 user_id user_message =
                 request_of environ w2 user_id user_message)
    by (unfold request_of; rewrite Hstored; reflexivity).
  split; [| split].
  - rewrite !format_messages_for_api_eq. cbn [fst]. rewrite Hstored. reflexivity.
  - rewrite !get_ai_response_eq. cbn [snd api_calls].
    rewrite !last_snoc, Hreq. reflexivity.
  - rewrite !get_ai_response_eq. cbn [fst]. rewrite Hreq. reflexivity.
Qed.

(** * The start of the process *)

Lemma text_truthy_true (o : option string) :
  text_truthy o = true <-> exists t, o = Some t /\ t <> "".
Proof.
  unfold text_truthy. split.
  - destruct o as [t |]; [| discriminate].
    intros H. exists t. split; [reflexivity |].
    apply negb_true_iff, bool_decide_eq_false in H. exact H.
  - intros (t & -> & Ht). apply text_truthy_some, Ht.
Qed.

(** The module loads exactly when both credentials are set and not
    empty and the bot constructor takes the token; what it then holds is
    the two credentials, the fixed base URL and the configured model. *)
Theorem module_init_loads environ bot_init cfg :
  module_init environ bot_init = Ok cfg <->
  exists token key,
    environ !! "TELEGRAM_TOKEN" = Some token /\ token <> "" /\
    bot_init token = None /\
    environ !! "OPENROUTER_API_KEY" = Some key /\ key <> "" /\
    cfg = {| cfg_telegram_token := token;
             cfg_api_key := key;
             cfg_base_url := "https://openrouter.ai/api/v1";
             cfg_model := getenv environ "OPENROUTER_MODEL"
                                 "google/gemini-pro-1.5" |}.
Proof.
  unfold module_init. split.
  - destruct (text_truthy (environ !! "TELEGRAM_TOKEN")) eqn:Htoken;
      [| discriminate].
    apply text_truthy_true in Htoken as (token & Htok & Hne). rewrite Htok.
    cbn [negb from_option id].
    destruct (bot_init token) eqn:Hbot; [discriminate |].
    destruct (text_truthy (environ !! "OPENROUTER_API_KEY")) eqn:Hkey;
      [| discriminate].
    apply text_truthy_true in Hkey as (key & Hk & Hkne). rewrite Hk.
    cbn [negb from_option id]. intros [= <-].
    exists token, key. repeat split; assumption.
  - intros (token & key & Htok & Hne & Hbot & Hk & Hkne & ->).
    rewrite Htok, Hk. rewrite !text_truthy_some by assumption.
    cbn [negb from_option id]. rewrite Hbot. reflexivity.
Qed.

(** The module fails to load in three ways, tried in this order: the bot
    token is unset or empty, and the error says so whatever the API key
    is; the bot constructor refuses the token, and its error comes out;
    the API key is unset or empty, and the error says so. *)
Theorem module_init_fails environ bot_init e :
  module_init environ bot_init = Raise e <->
  (text_truthy (environ !! "TELEGRAM_TOKEN") = false /\ e = token_missing) \/
  (exists token,
     environ !! "TELEGRAM_TOKEN" = Some token /\ token <> "" /\
     (bot_init token = Some e \/
      bot_init token = None /\
      text_truthy (environ !! "OPENROUTER_API_KEY") = false /\
      e = api_key_missing)).
Proof.
  unfold module_init. split.
  - destruct (text_truthy (environ !! "TELEGRAM_TOKEN")) eqn:Htoken;
      cbn [negb]; [| intros [= <-]; left; split; reflexivity].
    apply text_truthy_true in Htoken as (token & Htok & Hne). rewrite Htok.
    cbn [from_option id]. intros H. right. exists token.
    split; [reflexivity |]. split; [exact Hne |].
    destruct (bot_init token) as [e' |]; [injection H as <-; left; reflexivity |].
    right. split; [reflexivity |].
    destruct (text_truthy (environ !! "OPENROUTER_API_KEY"));
      cbn [negb] in H; [discriminate |].
    injection H as <-. split; reflexivity.
  - intros [[Htoken ->] | (token & Htok & Hne & Hbot)].
    + rewrite Htoken. reflexivity.
    + rewrite Htok, (text_truthy_some _ Hne). cbn [negb from_option id].
      destruct Hbot as [-> | (-> & Hkey & ->)]; [reflexivity |].
      rewrite Hkey. reflexivity.
Qed.

(** * The further properties at sample inputs *)

Lemma run_other_users_untouched_witness :
  Forall (fun ev => event_user ev <> 8) eleven_events /\
  user_messages (run ∅ eleven_events busy_world) !! 8 =
    user_messages busy_world !! 8.
Proof.
  assert (Hall : Forall (fun ev => event_user ev <> 8) eleven_events)
    by (repeat constructor; discriminate).
  split; [exact Hall |].
  apply (run_other_users_untouched ∅ eleven_events busy_world 8).
  exact Hall.
Defined.


Lemma empty_choices_handled_as_failure_witness :
  reachable ∅ busy_world /\
  choiceless (request_of ∅ busy_world 7 "6") = Returns {| choices := [] |} /\
  let res := get_ai_response ∅ choiceless 7 "6" busy_world in
  fst res = Ok apology /\
  history (snd res) 7 = lastn 10 (history busy_world 7 ++ [user_entry "6"]) /\
  last (history (snd res) 7) = Some (user_entry "6") /\
  stdout (snd res) =
    stdout busy_world ++ ["Ошибка при обращении к ИИ: list index out of range"].
Proof.
  split; [exact busy_world_reachable |].
  split; [reflexivity |].
  apply (empty_choices_handled_as_failure
           ∅ choiceless 7 "6" busy_world {| choices := [] |}).
  - exact busy_world_reachable.
  - reflexivity.
  - reflexivity.
Defined.




Lemma cmd_start_twice_witness :
  from_user_id (text_message 7 "/start") = from_user_id (text_message 7 "/start") /\
  user_messages
    (snd (cmd_start (text_message 7 "/start")
            (snd (cmd_start (text_message 7 "/start") busy_world)))) =
  user_messages (snd (cmd_start (text_message 7 "/start") busy_world)).
Proof.
  split; [reflexivity |].
  apply (cmd_start_twice (text_message 7 "/start") (text_message 7 "/start")
                         busy_world).
  reflexivity.
Defined.

Lemma requests_well_formed_witness :
  reachable ∅ busy_world /\
  Forall (request_ok ∅) (api_calls busy_world) /\
  Forall (fun req => (2 <= length (req_messages req) <= 11)%nat)
         (api_calls busy_world).
Proof.
  split; [exact busy_world_reachable |].
  apply (requests_well_formed ∅ busy_world).
  exact busy_world_reachable.
Defined.

Lemma module_init_loads_witness :
  module_init sample_environ any_token =
  Ok {| cfg_telegram_token := "123456:ABC";
        cfg_api_key := "sk-or-v1";
        cfg_base_url := "https://openrouter.ai/api/v1";
        cfg_model := "google/gemini-pro-1.5" |}.
Proof.
  apply (module_init_loads sample_environ any_token).
  exists "123456:ABC", "sk-or-v1".
  repeat split; try reflexivity; discriminate.
Defined.

Lemma module_init_fails_witness :
  module_init ∅ any_token = Raise token_missing.
Proof.
  apply (module_init_fails ∅ any_token token_missing).
  left. split; reflexivity.
Defined.

Lemma request_depends_on_own_history_witness :
  user_messages busy_world !! 8 = user_messages initial_world !! 8 /\
  fst (format_messages_for_api 8 "hi" busy_world) =
    fst (format_messages_for_api 8 "hi" initial_world) /\
  last (api_calls (snd (get_ai_response ∅ (replying "hello") 8 "hi" busy_world))) =
    last (api_calls (snd (get_ai_response ∅ (replying "hello") 8 "hi" initial_world))) /\
  fst (get_ai_response ∅ (replying "hello") 8 "hi" busy_world) =
    fst (get_ai_response ∅ (replying "hello") 8 "hi" initial_world).
Proof.
  split; [reflexivity |].
  apply (request_depends_on_own_history
           ∅ (replying "hello") 8 "hi" busy_world initial_world).
  reflexivity.
Defined.

(** * The program over the libraries' values: properties *)

Section RawFacts.
Variable environ : gmap string string.

Lemma raw_user_messages_append_eq user_id x w :
  Raw.user_messages_append user_id x w =
  (Raw.Ok tt,
   Raw.set_user_messages
     (<[user_id := deque_append (Raw.stored w user_id) x]> (Raw.user_messages w))
     w).
Proof.
  unfold Raw.user_messages_append, Raw.bind, Raw.user_messages_getitem, Raw.stored.
  destruct (Raw.user_messages w !! user_id) as [d |]; simpl; [reflexivity |].
  rewrite insert_insert_eq. reflexivity.
Qed.

Lemma raw_until_await_eq user_id user_message w :
  Raw.get_ai_response_until_await environ user_id user_message w =
  (Raw.Ok (Raw.request_of environ w user_id user_message),
   Raw.awaiting environ w user_id user_message).
Proof.
  unfold Raw.get_ai_response_until_await, Raw.format_messages_for_api, Raw.bind.
  rewrite raw_user_messages_append_eq.
  unfold Raw.user_messages_getitem. simpl.
  rewrite lookup_insert_eq. reflexivity.
Qed.

(** [get_ai_response] is its first half, the provider's outcome for the
    request made, and its second half. *)
Lemma raw_get_ai_response_halves client user_id user_message w :
  Raw.get_ai_response environ client user_id user_message w =
  Raw.get_ai_response_after_await user_id
    (client (Raw.request_of environ w user_id user_message))
    (Raw.awaiting environ w user_id user_message).
Proof.
  unfold Raw.get_ai_response, Raw.get_ai_response_after_await,
    Raw.try_except, Raw.bind, Raw.format_messages_for_api,
    Raw.chat_completions_create, Raw.bind.
  rewrite raw_user_messages_append_eq.
  unfold Raw.user_messages_getitem. simpl.
  rewrite lookup_insert_eq. reflexivity.
Qed.

(** The second half, one outcome at a time. *)
Lemma raw_after_await_cancelled user_id c w :
  Raw.get_ai_response_after_await user_id (Raw.Raises (Raw.BaseExc c)) w =
  (Raw.Raise (Raw.BaseExc c), w).
Proof. reflexivity. Qed.

Lemma raw_after_await_exception user_id e w :
  Raw.get_ai_response_after_await user_id (Raw.Raises (Raw.Exc e)) w =
  (Raw.Ok (Some apology),
   Raw.printed ("Ошибка при обращении к ИИ: " +:+ exc_str e) w).
Proof. reflexivity. Qed.

Lemma raw_after_await_no_choice user_id response w :
  Raw.choices response !! 0%nat = None ->
  Raw.get_ai_response_after_await user_id (Raw.Returns response) w =
  (Raw.Ok (Some apology),
   Raw.printed "Ошибка при обращении к ИИ: list index out of range" w).
Proof.
  intros Hnone.
  unfold Raw.get_ai_response_after_await, Raw.try_except, Raw.bind,
    Raw.resume, Raw.list_getitem.
  simpl. rewrite Hnone. reflexivity.
Qed.

Lemma raw_after_await_choice user_id response c w :
  Raw.choices response !! 0%nat = Some c ->
  Raw.get_ai_response_after_await user_id (Raw.Returns response) w =
  (Raw.Ok (Raw.msg_content (Raw.choice_message c)),
   Raw.replied user_id (Raw.msg_content (Raw.choice_message c)) w).
Proof.
  intros Hsome.
  unfold Raw.get_ai_response_after_await, Raw.try_except, Raw.bind,
    Raw.resume, Raw.list_getitem.
  simpl. rewrite Hsome. simpl.
  rewrite raw_user_messages_append_eq. reflexivity.
Qed.

Lemma raw_gives_text_cases o :
  Raw.gives_text o ->
  (exists e, o = Raw.Raises (Raw.Exc e)) \/
  (exists response, o = Raw.Returns response /\
                    Raw.choices response !! 0%nat = None) \/
  (exists response c r, o = Raw.Returns response /\
                        Raw.choices response !! 0%nat = Some c /\
                        Raw.msg_content (Raw.choice_message c) = Some r).
Proof.
  destruct o as [response | [e | c]]; simpl.
  - destruct (Raw.choices response !! 0%nat) as [c |] eqn:Hc.
    + intros [r Hr]. right. right. exists response, c, r.
      repeat split; assumption.
    + intros _. right. left. exists response. split; [reflexivity | exact Hc].
  - intros _. left. exists e. reflexivity.
  - contradiction.
Qed.

Lemma raw_get_ai_response_text client user_id user_message w :
  Raw.gives_text (client (Raw.request_of environ w user_id user_message)) ->
  exists w',
    Raw.get_ai_response environ client user_id user_message w =
    (Raw.Ok (Some (Raw.text_of
                     (client (Raw.request_of environ w user_id user_message)))),
     w') /\
    Raw.sent w' = Raw.sent w.
Proof.
  intros Ho. rewrite raw_get_ai_response_halves.
  destruct (raw_gives_text_cases _ Ho)
    as [[e ->] | [(response & -> & Hnone) | (response & c & r & -> & Hc & Hr)]].
  - rewrite raw_after_await_exception. eauto.
  - rewrite (raw_after_await_no_choice _ _ _ Hnone).
    unfold Raw.text_of. rewrite Hnone. eauto.
  - rewrite (raw_after_await_choice _ _ _ _ Hc).
    unfold Raw.text_of. rewrite Hc, Hr. eauto.
Qed.

(** C5, as the code has it.  When the provider call gives a first choice
    with text, gives no choice at all, or raises an [Exception],
    [get_ai_response] does not raise and returns a string: the text of
    the first choice, or the apology.  Then the text handler, for a
    message with text and a transport that takes the typing indicator and
    the reply, does not raise and sends exactly one answer, that
    string. *)
Theorem get_ai_response_text_or_apology client user_id user_message w :
  Raw.gives_text (client (Raw.request_of environ w user_id user_message)) ->
  let reply := Raw.text_of
                 (client (Raw.request_of environ w user_id user_message)) in
  fst (Raw.get_ai_response environ client user_id user_message w) =
    Raw.Ok (Some reply) /\
  (forall tr message,
     from_user_id message = user_id ->
     text message = Some user_message ->
     user_message <> "" ->
     tr (Raw.ChatAction (chat_id message) "typing") = None ->
     tr (Raw.Answer (chat_id message) (Some reply)) = None ->
     fst (Raw.handle_text_message environ tr client message w) = Raw.Ok tt /\
     Raw.sent (snd (Raw.handle_text_message environ tr client message w)) =
       Raw.sent w ++ [Raw.ChatAction (chat_id message) "typing";
                      Raw.Answer (chat_id message) (Some reply)]).
Proof.
  intros Ho reply. split.
  - destruct (raw_get_ai_response_text _ _ _ _ Ho) as (w' & -> & _).
    reflexivity.
  - intros tr message Huser Htext Hne Htyping Hanswer.
    assert (Hrun : exists w'',
               Raw.handle_text_message environ tr client message w =
                 (Raw.Ok tt, w'') /\
               Raw.sent w'' =
                 Raw.sent w ++ [Raw.ChatAction (chat_id message) "typing";
                                Raw.Answer (chat_id message) (Some reply)]).
    { unfold Raw.handle_text_message. rewrite Htext.
      rewrite text_truthy_some by exact Hne.
      cbn [negb from_option id]. rewrite Huser.
      unfold Raw.bind, Raw.send_chat_action, Raw.transport_call at 1.
      rewrite Htyping.
      match goal with
      | |- context [Raw.get_ai_response environ client user_id user_message ?w0] =>
          destruct (raw_get_ai_response_text client user_id user_message w0 Ho)
            as (w' & Heq & Hsent);
          change (Raw.request_of environ w0 user_id user_message)
            with (Raw.request_of environ w user_id user_message) in Heq
      end.
      rewrite Heq. fold reply.
      unfold Raw.message_answer, Raw.transport_call. rewrite Hanswer.
      eexists. split; [reflexivity |].
      cbn [Raw.sent] in *. rewrite Hsent, <- app_assoc. reflexivity. }
    destruct Hrun as (w'' & -> & Hsent). split; [reflexivity | exact Hsent].
Qed.

(** When the awaited provider call is ended by something outside
    [Exception] (the task is cancelled), [get_ai_response] hands it on to
    its caller: nothing is printed, no apology is returned, and the
    user's entry, appended before the call, stays in the history with no
    assistant entry after it.  The text handler hands it on as well and
    sends no answer. *)
Theorem signal_outside_exception_reaches_caller client user_id user_message w c :
  client (Raw.request_of environ w user_id user_message) =
    Raw.Raises (Raw.BaseExc c) ->
  Raw.get_ai_response environ client user_id user_message w =
    (Raw.Raise (Raw.BaseExc c), Raw.awaiting environ w user_id user_message) /\
  Raw.stdout (Raw.awaiting environ w user_id user_message) = Raw.stdout w /\
  (forall tr message,
     from_user_id message = user_id ->
     text message = Some user_message ->
     user_message <> "" ->
     tr (Raw.ChatAction (chat_id message) "typing") = None ->
     fst (Raw.handle_text_message environ tr client message w) =
       Raw.Raise (Raw.BaseExc c) /\
     Raw.sent (snd (Raw.handle_text_message environ tr client message w)) =
       Raw.sent w ++ [Raw.ChatAction (chat_id message) "typing"]).
Proof.
  intros Hc. split; [| split].
  - rewrite raw_get_ai_response_halves, Hc. reflexivity.
  - reflexivity.
  - intros tr message Huser Htext Hne Htyping.
    assert (Hrun : exists w'',
               Raw.handle_text_message environ tr client message w =
                 (Raw.Raise (Raw.BaseExc c), w'') /\
               Raw.sent w'' =
                 Raw.sent w ++ [Raw.ChatAction (chat_id message) "typing"]).
    { unfold Raw.handle_text_message. rewrite Htext.
      rewrite text_truthy_some by exact Hne.
      cbn [negb from_option id]. rewrite Huser.
      unfold Raw.bind, Raw.send_chat_action, Raw.transport_call.
      rewrite Htyping, raw_get_ai_response_halves.
      match goal with
      | |- context [client (Raw.request_of environ ?w0 user_id user_message)] =>
          change (Raw.request_of environ w0 user_id user_message)
            with (Raw.request_of environ w user_id user_message)
      end.
      rewrite Hc, raw_after_await_cancelled.
      eexists. split; reflexivity. }
    destruct Hrun as (w'' & -> & Hsent). split; [reflexivity | exact Hsent].
Qed.

(** When the first choice comes with no content, [get_ai_response]
    returns [None], not a string: nothing is caught and nothing is
    printed, and an assistant entry without content goes into the
    history.  The text handler then passes [None] to [message.answer];
    when the transport refuses an answer without a body, the handler ends
    by that error and the only call that went out is the typing
    indicator. *)
Theorem null_content_is_returned_as_none client user_id user_message w response c :
  client (Raw.request_of environ w user_id user_message) = Raw.Returns response ->
  Raw.choices response !! 0%nat = Some c ->
  Raw.msg_content (Raw.choice_message c) = None ->
  Raw.get_ai_response environ client user_id user_message w =
    (Raw.Ok None,
     Raw.replied user_id None (Raw.awaiting environ w user_id user_message)) /\
  Raw.stdout (snd (Raw.get_ai_response environ client user_id user_message w)) =
    Raw.stdout w /\
  (forall tr message x,
     from_user_id message = user_id ->
     text message = Some user_message ->
     user_message <> "" ->
     tr (Raw.ChatAction (chat_id message) "typing") = None ->
     tr (Raw.Answer (chat_id message) None) = Some x ->
     fst (Raw.handle_text_message environ tr client message w) = Raw.Raise x /\
     Raw.sent (snd (Raw.handle_text_message environ tr client message w)) =
       Raw.sent w ++ [Raw.ChatAction (chat_id message) "typing"]).
Proof.
  intros Hresp Hc Hnone.
  assert (Heq : forall w0,
             Raw.request_of environ w0 user_id user_message =
               Raw.request_of environ w user_id user_message ->
             Raw.get_ai_response environ client user_id user_message w0 =
               (Raw.Ok None,
                Raw.replied user_id None
                  (Raw.awaiting environ w0 user_id user_message))).
  { intros w0 Hreq. rewrite raw_get_ai_response_halves, Hreq, Hresp.
    rewrite (raw_after_await_choice _ _ _ _ Hc), Hnone. reflexivity. }
  split; [| split].
  - apply Heq. reflexivity.
  - rewrite Heq by reflexivity. reflexivity.
  - intros tr message x Huser Htext Hne Htyping Hanswer.
    assert (Hrun : exists w'',
               Raw.handle_text_message environ tr client message w =
                 (Raw.Raise x, w'') /\
               Raw.sent w'' =
                 Raw.sent w ++ [Raw.ChatAction (chat_id message) "typing"]).
    { unfold Raw.handle_text_message. rewrite Htext.
      rewrite text_truthy_some by exact Hne.
      cbn [negb from_option id]. rewrite Huser.
      unfold Raw.bind, Raw.send_chat_action, Raw.transport_call at 1.
      rewrite Htyping, Heq by reflexivity.
      unfold Raw.message_answer, Raw.transport_call. rewrite Hanswer.
      eexists. split; reflexivity. }
    destruct Hrun as (w'' & -> & Hsent). split; [reflexivity | exact Hsent].
Qed.

(** When the transport refuses the typing indicator, the text handler
    ends by that error before anything else happens: the state is the
    one before, with no history entry, no provider call and no answer. *)
Lemma failed_typing_indicator_stops_handler tr client message w x :
  text_truthy (text message) = true ->
  tr (Raw.ChatAction (chat_id message) "typing") = Some x ->
  Raw.handle_text_message environ tr client message w = (Raw.Raise x, w).
Proof.
  intros Htext Htyping. unfold Raw.handle_text_message. rewrite Htext.
  cbn [negb]. unfold Raw.bind, Raw.send_chat_action, Raw.transport_call.
  rewrite Htyping. reflexivity.
Qed.

(** *** Two calls of one user that overlap *)

Lemma raw_history_stored w user_id :
  Raw.history w user_id = items (Raw.stored w user_id).
Proof.
  unfold Raw.history, Raw.stored.
  destruct (Raw.user_messages w !! user_id); reflexivity.
Qed.

Lemma raw_stored_awaiting w user_id t :
  Raw.stored (Raw.awaiting environ w user_id t) user_id =
  deque_append (Raw.stored w user_id) (Raw.user_entry t).
Proof.
  unfold Raw.stored at 1, Raw.awaiting. cbn [Raw.user_messages].
  rewrite lookup_insert_eq. reflexivity.
Qed.

Lemma raw_stored_replied w user_id c :
  Raw.stored (Raw.replied user_id c w) user_id =
  deque_append (Raw.stored w user_id) (Raw.assistant_entry c).
Proof.
  unfold Raw.stored at 1, Raw.replied, Raw.set_user_messages.
  cbn [Raw.user_messages]. rewrite lookup_insert_eq. reflexivity.
Qed.

(** [get_ai_response] is its part up to the awaited provider call
    followed by its part after it.  When a second message of the same
    user is taken up while the call for the first is still awaited, and
    both calls then return a first choice, the second request carries the
    first user entry without its reply, and the history ends with the two
    user entries followed by the two assistant entries: the turns are out
    of order. *)
Theorem interleaved_calls_reorder_turns user_id a b ra rb ca cb w :
  maxlen (Raw.stored w user_id) = 10%nat ->
  deque_ok (Raw.stored w user_id) ->
  Raw.choices ra !! 0%nat = Some ca ->
  Raw.choices rb !! 0%nat = Some cb ->
  let w1 := snd (Raw.get_ai_response_until_await environ user_id a w) in
  let w2 := snd (Raw.get_ai_response_until_await environ user_id b w1) in
  let w3 := snd (Raw.get_ai_response_after_await user_id (Raw.Returns ra) w2) in
  let w4 := snd (Raw.get_ai_response_after_await user_id (Raw.Returns rb) w3) in
  (forall client t w0,
     Raw.get_ai_response environ client user_id t w0 =
     Raw.get_ai_response_after_await user_id
       (client (Raw.request_of environ w0 user_id t))
       (snd (Raw.get_ai_response_until_await environ user_id t w0))) /\
  (exists req,
     fst (Raw.get_ai_response_until_await environ user_id b w1) = Raw.Ok req /\
     Raw.req_messages req =
       Raw.system_message ::
       lastn 10 (Raw.history w user_id ++ [Raw.user_entry a; Raw.user_entry b])) /\
  Raw.history w4 user_id =
    lastn 10 (Raw.history w user_id ++
              [Raw.user_entry a; Raw.user_entry b;
               Raw.assistant_entry (Raw.msg_content (Raw.choice_message ca));
               Raw.assistant_entry (Raw.msg_content (Raw.choice_message cb))]).
Proof.
  intros Hmax Hok Hca Hcb w1 w2 w3 w4.
  assert (H1 : w1 = Raw.awaiting environ w user_id a)
    by (unfold w1; rewrite raw_until_await_eq; reflexivity).
  assert (H2 : w2 = Raw.awaiting environ w1 user_id b)
    by (unfold w2; rewrite raw_until_await_eq; reflexivity).
  assert (H3 : w3 = Raw.replied user_id (Raw.msg_content (Raw.choice_message ca)) w2)
    by (unfold w3; rewrite (raw_after_await_choice _ _ _ _ Hca); reflexivity).
  assert (H4 : w4 = Raw.replied user_id (Raw.msg_content (Raw.choice_message cb)) w3)
    by (unfold w4; rewrite (raw_after_await_choice _ _ _ _ Hcb); reflexivity).
  split; [| split].
  - intros client t w0. rewrite raw_until_await_eq.
    apply raw_get_ai_response_halves.
  - exists (Raw.request_of environ w1 user_id b).
    rewrite raw_until_await_eq. split; [reflexivity |].
    unfold Raw.request_of. cbn [Raw.req_messages]. f_equal.
    rewrite H1, raw_stored_awaiting.
    change (items (deque_extend (Raw.stored w user_id)
                     [Raw.user_entry a; Raw.user_entry b]) =
            lastn 10 (Raw.history w user_id ++
                      [Raw.user_entry a; Raw.user_entry b])).
    rewrite deque_extend_items by exact Hok.
    rewrite Hmax, raw_history_stored. reflexivity.
  - rewrite (raw_history_stored w4), H4, raw_stored_replied,
      H3, raw_stored_replied, H2, raw_stored_awaiting, H1, raw_stored_awaiting.
    change (items (deque_extend (Raw.stored w user_id)
                     [Raw.user_entry a; Raw.user_entry b;
                      Raw.assistant_entry (Raw.msg_content (Raw.choice_message ca));
                      Raw.assistant_entry (Raw.msg_content (Raw.choice_message cb))]) =
            lastn 10 (Raw.history w user_id ++
                      [Raw.user_entry a; Raw.user_entry b;
                       Raw.assistant_entry (Raw.msg_content (Raw.choice_message ca));
                       Raw.assistant_entry (Raw.msg_content (Raw.choice_message cb))])).
    rewrite deque_extend_items by exact Hok.
    rewrite Hmax, raw_history_stored. reflexivity.
Qed.
End RawFacts.

(** * The two embeddings agree on the annotated values *)

Lemma lower_lift_entry e : lower_entry (lift_entry e) = e.
Proof. destruct e. reflexivity. Qed.

Lemma lower_lift_request req : lower_request (lift_request req) = req.
Proof.
  destruct req as [model messages temperature].
  unfold lower_request, lift_request. cbn. f_equal.
  induction messages as [| e messages IH]; [reflexivity |].
  cbn. rewrite lower_lift_entry. f_equal. exact IH.
Qed.

Lemma lift_deque_append d x :
  lift_deque (deque_append d x) = deque_append (lift_deque d) (lift_entry x).
Proof.
  unfold lift_deque, deque_append. cbn [maxlen items]. f_equal.
  rewrite !length_app, length_fmap. cbn [length].
  case_decide; [rewrite fmap_drop |]; rewrite fmap_app; reflexivity.
Qed.

Lemma raw_stored_lift w user_id :
  Raw.stored (lift_world w) user_id = lift_deque (stored w user_id).
Proof.
  unfold Raw.stored, stored, lift_world. cbn [Raw.user_messages].
  rewrite lookup_fmap. destruct (user_messages w !! user_id); reflexivity.
Qed.

Section Agreement.
Variable environ : gmap string string.

Lemma raw_request_of_lift w user_id t :
  Raw.request_of environ (lift_world w) user_id t =
  lift_request (request_of environ w user_id t).
Proof.
  unfold Raw.request_of, request_of, lift_request.
  cbn [req_model req_messages req_temperature]. f_equal.
  rewrite raw_stored_lift.
  change (Raw.user_entry t) with (lift_entry (user_entry t)).
  rewrite <- lift_deque_append. reflexivity.
Qed.

Lemma lift_provider_request client w user_id t :
  lift_provider client (Raw.request_of environ (lift_world w) user_id t) =
  lift_outcome (client (request_of environ w user_id t)).
Proof.
  unfold lift_provider. rewrite raw_request_of_lift, lower_lift_request.
  reflexivity.
Qed.

Lemma raw_awaiting_lift w user_id t :
  Raw.awaiting environ (lift_world w) user_id t =
  lift_world
    {| user_messages :=
         <[user_id := deque_append (stored w user_id) (user_entry t)]>
           (user_messages w);
       stdout := stdout w;
       api_calls := api_calls w ++ [request_of environ w user_id t];
       sent := sent w |}.
Proof.
  unfold Raw.awaiting. rewrite raw_request_of_lift, raw_stored_lift.
  unfold lift_world.
  cbn [user_messages stdout api_calls sent Raw.user_messages Raw.stdout
       Raw.api_calls Raw.sent].
  rewrite fmap_insert, fmap_app, lift_deque_append. reflexivity.
Qed.

(** For a provider that keeps to the annotations of [main.py] (the
    content of a choice is a string, what is raised is an [Exception]),
    [get_ai_response] over the libraries' values does exactly what the
    embedding over the annotated values does: the same result and the
    same state.  With a transport that takes every call, the same holds
    of the text handler. *)
Theorem annotated_values_agree client user_id user_message message w :
  Raw.get_ai_response environ (lift_provider client) user_id user_message
    (lift_world w) =
  (lift_result Some (fst (get_ai_response environ client user_id user_message w)),
   lift_world (snd (get_ai_response environ client user_id user_message w))) /\
  Raw.handle_text_message environ Raw.accepting (lift_provider client) message
    (lift_world w) =
  (lift_result id (fst (handle_text_message environ client message w)),
   lift_world (snd (handle_text_message environ client message w))).
Proof.
  assert (Hcall : forall u t w0,
             Raw.get_ai_response environ (lift_provider client) u t
               (lift_world w0) =
             (lift_result Some (fst (get_ai_response environ client u t w0)),
              lift_world (snd (get_ai_response environ client u t w0)))).
  { intros u t w0.
    rewrite raw_get_ai_response_halves, lift_provider_request, raw_awaiting_lift.
    destruct (outcome_cases (client (request_of environ w0 u t)))
      as [[e He] | [He | [r Hr]]].
    - rewrite (get_ai_response_raises _ _ _ _ _ _ He), He. reflexivity.
    - rewrite (get_ai_response_no_choice _ _ _ _ _ He), He. reflexivity.
    - rewrite (get_ai_response_text _ _ _ _ _ _ Hr).
      unfold first_text in Hr.
      destruct (client (request_of environ w0 u t)) as [response | e];
        [| discriminate].
      destruct (choices response !! 0%nat) as [c |] eqn:Hc; [| discriminate].
      injection Hr as <-.
      assert (Hlift : Raw.choices
                        {| Raw.choices := lift_choice <$> choices response |}
                        !! 0%nat = Some (lift_choice c))
        by (cbn [Raw.choices]; rewrite list_lookup_fmap, Hc; reflexivity).
      cbn [lift_outcome]. rewrite (raw_after_await_choice _ _ _ _ Hlift).
      cbn [fst snd lift_result]. f_equal.
      unfold Raw.replied, Raw.set_user_messages, Raw.stored, lift_world.
      cbn [user_messages stdout api_calls sent Raw.user_messages Raw.stdout
           Raw.api_calls Raw.sent].
      rewrite !fmap_insert, lookup_insert_eq, insert_insert_eq.
      cbn [from_option id]. rewrite !lift_deque_append. reflexivity. }
  split; [apply Hcall |].
  unfold Raw.handle_text_message, handle_text_message.
  destruct (text_truthy (text message)); cbn [negb].
  - unfold Raw.bind, bind, Raw.send_chat_action, send_chat_action,
      Raw.transport_call, Raw.accepting.
    match goal with
    | |- context [get_ai_response environ client ?u ?t ?w0] =>
        assert (Hw0 : forall rw,
                   rw = lift_world w0 ->
                   Raw.get_ai_response environ (lift_provider client) u t rw =
                   (lift_result Some (fst (get_ai_response environ client u t w0)),
                    lift_world (snd (get_ai_response environ client u t w0))))
          by (intros rw ->; apply Hcall);
        rewrite Hw0
          by (unfold lift_world; cbn [user_messages stdout api_calls sent];
              rewrite fmap_app; reflexivity);
        destruct (get_ai_response environ client u t w0) as [[r | e] w1]
    end.
    + cbn [fst snd lift_result]. unfold Raw.message_answer, message_answer,
        Raw.transport_call. cbn [fst snd lift_result id]. f_equal.
      unfold lift_world. cbn [user_messages stdout api_calls sent].
      rewrite fmap_app. reflexivity.
    + reflexivity.
  - unfold Raw.message_answer, message_answer, Raw.transport_call, Raw.accepting.
    cbn [fst snd lift_result id]. f_equal.
    unfold lift_world. cbn [user_messages stdout api_calls sent].
    rewrite fmap_app. reflexivity.
Qed.
End Agreement.

(** * The libraries' values at sample inputs *)

(** C5 as stated fails: a cancelled provider call is not turned into
    text, it reaches the caller of [get_ai_response]. *)
Lemma cancelled_call_is_not_absorbed :
  fst (Raw.get_ai_response ∅ Raw.cancelled 7 "hi" Raw.initial_world) =
    Raw.Raise (Raw.BaseExc "CancelledError") /\
  ~ (exists reply,
       fst (Raw.get_ai_response ∅ Raw.cancelled 7 "hi" Raw.initial_world) =
         Raw.Ok (Some reply)).
Proof.
  assert (Hrun : fst (Raw.get_ai_response ∅ Raw.cancelled 7 "hi"
                        Raw.initial_world) =
                 Raw.Raise (Raw.BaseExc "CancelledError")) by reflexivity.
  split; [exact Hrun |].
  intros [reply Hreply]. rewrite Hrun in Hreply. discriminate.
Qed.

Lemma get_ai_response_text_or_apology_witness :
  Raw.gives_text (Raw.replying "hello" (Raw.request_of ∅ Raw.initial_world 7 "hi")) /\
  let reply := Raw.text_of
                 (Raw.replying "hello" (Raw.request_of ∅ Raw.initial_world 7 "hi")) in
  fst (Raw.get_ai_response ∅ (Raw.replying "hello") 7 "hi" Raw.initial_world) =
    Raw.Ok (Some reply) /\
  (forall tr message,
     from_user_id message = 7 ->
     text message = Some "hi" ->
     "hi" <> "" ->
     tr (Raw.ChatAction (chat_id message) "typing") = None ->
     tr (Raw.Answer (chat_id message) (Some reply)) = None ->
     fst (Raw.handle_text_message ∅ tr (Raw.replying "hello") message
            Raw.initial_world) = Raw.Ok tt /\
     Raw.sent (snd (Raw.handle_text_message ∅ tr (Raw.replying "hello") message
                      Raw.initial_world)) =
       Raw.sent Raw.initial_world ++
       [Raw.ChatAction (chat_id message) "typing";
        Raw.Answer (chat_id message) (Some reply)]).
Proof.
  assert (Hgives : Raw.gives_text
                     (Raw.replying "hello"
                        (Raw.request_of ∅ Raw.initial_world 7 "hi")))
    by (exists "hello"; reflexivity).
  split; [exact Hgives |].
  apply (get_ai_response_text_or_apology
           ∅ (Raw.replying "hello") 7 "hi" Raw.initial_world).
  exact Hgives.
Defined.

Lemma signal_outside_exception_reaches_caller_witness :
  Raw.cancelled (Raw.request_of ∅ Raw.initial_world 7 "hi") =
    Raw.Raises (Raw.BaseExc "CancelledError") /\
  Raw.get_ai_response ∅ Raw.cancelled 7 "hi" Raw.initial_world =
    (Raw.Raise (Raw.BaseExc "CancelledError"),
     Raw.awaiting ∅ Raw.initial_world 7 "hi") /\
  Raw.history (Raw.awaiting ∅ Raw.initial_world 7 "hi") 7 = [Raw.user_entry "hi"].
Proof.
  split; [reflexivity |].
  split; [| reflexivity].
  apply (signal_outside_exception_reaches_caller
           ∅ Raw.cancelled 7 "hi" Raw.initial_world "CancelledError").
  reflexivity.
Defined.

Lemma null_content_is_returned_as_none_witness :
  Raw.null_content (Raw.request_of ∅ Raw.initial_world 7 "hi") =
    Raw.Returns {| Raw.choices :=
                     [ {| Raw.choice_message := {| Raw.msg_content := None |} |} ] |} /\
  Raw.get_ai_response ∅ Raw.null_content 7 "hi" Raw.initial_world =
    (Raw.Ok None, Raw.replied 7 None (Raw.awaiting ∅ Raw.initial_world 7 "hi")) /\
  fst (Raw.handle_text_message ∅ Raw.validating Raw.null_content
         (text_message 7 "hi") Raw.initial_world) =
    Raw.Raise (Raw.Exc {| exc_type := "ValidationError";
                          exc_str := "text: Input should be a valid string" |}) /\
  Raw.sent (snd (Raw.handle_text_message ∅ Raw.validating Raw.null_content
                   (text_message 7 "hi") Raw.initial_world)) =
    [Raw.ChatAction 7 "typing"].
Proof.
  split; [reflexivity |].
  pose proof (null_content_is_returned_as_none
                ∅ Raw.null_content 7 "hi" Raw.initial_world
                {| Raw.choices :=
                     [ {| Raw.choice_message := {| Raw.msg_content := None |} |} ] |}
                {| Raw.choice_message := {| Raw.msg_content := None |} |}
                eq_refl eq_refl eq_refl) as (Hcall & _ & Hhandler).
  split; [exact Hcall |].
  apply (Hhandler Raw.validating (text_message 7 "hi")); try reflexivity.
  discriminate.
Defined.

Lemma interleaved_calls_reorder_turns_witness :
  maxlen (Raw.stored Raw.initial_world 7) = 10%nat /\
  deque_ok (Raw.stored Raw.initial_world 7) /\
  Raw.history
    (snd (Raw.get_ai_response_after_await 7
            (Raw.replying "rb" (Raw.request_of ∅ Raw.initial_world 7 "b"))
            (snd (Raw.get_ai_response_after_await 7
                    (Raw.replying "ra" (Raw.request_of ∅ Raw.initial_world 7 "a"))
                    (snd (Raw.get_ai_response_until_await ∅ 7 "b"
                            (snd (Raw.get_ai_response_until_await ∅ 7 "a"
                                    Raw.initial_world)))))))) 7 =
  lastn 10 (Raw.history Raw.initial_world 7 ++
            [Raw.user_entry "a"; Raw.user_entry "b";
             Raw.assistant_entry (Some "ra"); Raw.assistant_entry (Some "rb")]).
Proof.
  split; [reflexivity |].
  split; [unfold deque_ok; vm_compute; lia |].
  apply (interleaved_calls_reorder_turns
           ∅ 7 "a" "b"
           {| Raw.choices :=
                [ {| Raw.choice_message := {| Raw.msg_content := Some "ra" |} |} ] |}
           {| Raw.choices :=
                [ {| Raw.choice_message := {| Raw.msg_content := Some "rb" |} |} ] |}
           {| Raw.choice_message := {| Raw.msg_content := Some "ra" |} |}
           {| Raw.choice_message := {| Raw.msg_content := Some "rb" |} |}
           Raw.initial_world);
    try reflexivity.
  unfold deque_ok. vm_compute. lia.
Defined.
